(** * The accounts store of the wallet application

    A shallow embedding of the zustand store [useAccountsStore]
    (store/accounts) and of the label-import screen handler
    [importLabelsFromClipboard], followed by the properties of the
    specification that concern them.

    Modelling decisions.
    - Account objects are JavaScript objects shared by reference: the
      store's [accounts] array holds references, and [getTx] / [getUtxo] /
      [setUtxoLabel] read and mutate the object obtained from
      [getCurrentAccount] in place.  Account objects therefore live in a
      heap, and the store holds locations.  The arrays and nested records
      of an account are part of the account object.
    - An [async] function is a computation in a state-and-exception monad:
      a rejected promise is [Throw], the memory survives a rejection.
      Calls are sequential (no other task runs at an [await]).
    - [set(produce(recipe))] is copy-on-write: a recipe that changes an
      account allocates a fresh object and never touches the base object;
      a recipe that throws leaves the store as it was.  Freezing of
      produced state by the immer library is not modelled: objects are
      extensible, as they are after the store is rehydrated from storage.
    - JavaScript numbers that serve as indices and amounts are integers
      ([Z]); floating point is out of scope. *)

From Stdlib Require Import ZArith QArith String Ascii List Lia.
From Stdlib Require Import Sorted Permutation.
From stdpp Require Import base list strings.

Local Open Scope Z_scope.

(** ** JavaScript primitives used by the source *)

Module Js.

(** A value of static type [T | undefined | null]. *)
Inductive ref (T : Type) : Type :=
| obj (t : T)
| undefined
| null.
Arguments obj {T} t.
Arguments undefined {T}.
Arguments null {T}.

(** [x !== null] *)
Definition neq_null {T} (x : ref T) : bool :=
  match x with null => false | _ => true end.

(** [x !== undefined] *)
Definition neq_undefined {T} (x : ref T) : bool :=
  match x with undefined => false | _ => true end.

(** [Array.prototype.find]: the first element satisfying the callback,
    [undefined] when there is none (never [null]). *)
Fixpoint find {T} (p : T -> bool) (l : list T) : ref T :=
  match l with
  | [] => undefined
  | x :: r => if p x then obj x else find p r
  end.

Fixpoint findIndex_from {T} (p : T -> bool) (l : list T) (i : Z) : Z :=
  match l with
  | [] => -1
  | x :: r => if p x then i else findIndex_from p r (i + 1)
  end.

(** [Array.prototype.findIndex]: the first index whose element
    satisfies the callback, [-1] when there is none. *)
Definition findIndex {T} (p : T -> bool) (l : list T) : Z :=
  findIndex_from p l 0.

(** [a[i]] for an integer [i]: [undefined] out of range. *)
Definition at_ {T} (l : list T) (i : Z) : ref T :=
  if i <? 0 then undefined
  else match l !! Z.to_nat i with
       | Some x => obj x
       | None => undefined
       end.

(** [a.push(x)] *)
Definition push {T} (l : list T) (x : T) : list T := l ++ [x].

(** [a[i] = x] for an index already in range. *)
Definition set_at {T} (l : list T) (i : Z) (x : T) : list T :=
  <[Z.to_nat i := x]> l.

End Js.

(** ** Data model *)

Module TxOutput.
(** An element of [Transaction.vout]: [{ value, address }]. *)
Record t : Type := mk { value : Z; address : string }.
End TxOutput.

Module Transaction.
Inductive txtype : Type := send | receive.

Record t : Type := mk {
  id : string;
  type : txtype;
  sent : Z;
  received : Z;
  timestamp : Z;
  size : Z;
  vout : list TxOutput.t
}.
End Transaction.

Module Utxo.
Inductive keychain_t : Type := external | internal.

Record t : Type := mk {
  txid : string;
  vout : Z;
  value : Z;
  timestamp : Z;
  addressTo : string;
  keychain : keychain_t;
  label : option string
}.

(** [u.label = l] on a copy of [u]. *)
Definition with_label (u : t) (l : string) : t :=
  mk (txid u) (vout u) (value u) (timestamp u) (addressTo u) (keychain u)
     (Some l).

(** The callback [(u) => u.txid === txid && u.vout === vout]. *)
Definition has_key (txid' : string) (vout' : Z) (u : t) : bool :=
  String.eqb (txid u) txid' && (vout u =? vout').
End Utxo.

Module Account.
(** Modelled from the spec: the declaration of the [Account] type
    (types/models/Account) is missing.  The fields the store reads and
    writes are [name], [transactions], [utxos] and [summary]; the
    remaining own properties (descriptors, script version, seed-word
    policy, ...) are kept as a list of named values, and [summary] as
    its named aggregate figures. *)
Record t : Type := mk {
  name : string;
  transactions : list Transaction.t;
  utxos : list Utxo.t;
  summary : list (string * Z);
  props : list (string * string)
}.

Definition with_transactions (a : t) (txs : list Transaction.t) : t :=
  mk (name a) txs (utxos a) (summary a) (props a).

Definition with_utxos (a : t) (us : list Utxo.t) : t :=
  mk (name a) (transactions a) us (summary a) (props a).
End Account.

(** Remote data, as the source reads it. *)
Module TxOut.
Record t : Type := mk { value : Z; scriptpubkey_address : string }.
End TxOut.

Module TxData.
(** The fields of the indexer's answer that [getTx] reads:
    [txid], [size], [status.block_time], [vout]. *)
Record t : Type := mk {
  txid : string;
  size : Z;
  status_block_time : Z;
  vout : list TxOut.t
}.
End TxData.

Module WalletData.
(** [{ transactions, utxos, summary }] as [getWalletData] resolves. *)
Record t : Type := mk {
  transactions : list Transaction.t;
  utxos : list Utxo.t;
  summary : list (string * Z)
}.
End WalletData.

(** ** Memory: the heap of account objects and the store state *)

Definition loc : Type := nat.

(** [type AccountsState = { accounts: Account[]; tags: string[] }] *)
Record AccountsState : Type := mkState {
  accounts : list loc;
  tags : list string
}.

Record Mem : Type := mkMem {
  heap : list Account.t;
  store : AccountsState
}.

(** The initial store: [accounts: [], tags: []]. *)
Definition initial : Mem := mkMem [] (mkState [] []).

(** Every reference held by the store points to an object. *)
Definition m_wf (m : Mem) : Prop :=
  Forall (fun l => (l < length (heap m))%nat) (accounts (store m)).

(** ** Promises: state and exceptions *)

Inductive Exn : Type :=
| TypeError
| SyntaxError
| Rejected (reason : string).

Inductive Outcome (T : Type) : Type :=
| Ok (v : T)
| Throw (e : Exn).
Arguments Ok {T} v.
Arguments Throw {T} e.

Definition M (T : Type) : Type := Mem -> Outcome T * Mem.

Definition ret {T} (v : T) : M T := fun m => (Ok v, m).

Definition throw {T} (e : Exn) : M T := fun m => (Throw e, m).

Definition bind {A B} (c : M A) (k : A -> M B) : M B :=
  fun m =>
    match c m with
    | (Ok v, m') => k v m'
    | (Throw e, m') => (Throw e, m')
    end.

Notation "x <- c ;; k" := (bind c (fun x => k))
  (at level 100, c at next level, right associativity).
Notation "'exec' c ;; k" := (bind c (fun _ => k))
  (at level 100, c at next level, right associativity).

(** [await p] on the promise of an external capability. *)
Definition await {T} (p : Outcome T) : M T := fun m => (p, m).

(** A call to an [async] function whose promise is dropped: its
    synchronous effects happen, its rejection does not reach the caller. *)
Definition unawaited {T} (c : M T) : M unit :=
  fun m => (Ok tt, snd (c m)).

(** ** Reads through references *)

(** The callback [(account) => account.name === name] over references. *)
Definition name_is (h : list Account.t) (n : string) (l : loc) : bool :=
  match h !! l with
  | Some a => String.eqb (Account.name a) n
  | None => false
  end.

(** [state.accounts.find(...)] result used as an object: the source casts
    it [as Account] and accesses a member next, which is a [TypeError]
    when the lookup gave [undefined]. *)
Definition as_object (r : Mem -> Js.ref loc) : M loc :=
  fun m =>
    match r m with
    | Js.obj l => (Ok l, m)
    | _ => (Throw TypeError, m)
    end.

(** Reading the object behind a reference. *)
Definition deref (account : loc) : M Account.t :=
  fun m =>
    match heap m !! account with
    | Some a => (Ok a, m)
    | None => (Throw TypeError, m)
    end.

(** In-place mutation of the object behind a reference. *)
Definition mutate (account : loc) (f : Account.t -> Account.t) : M unit :=
  fun m =>
    match heap m !! account with
    | Some a => (Ok tt, mkMem (<[account := f a]> (heap m)) (store m))
    | None => (Throw TypeError, m)
    end.

(** A fresh object. *)
Definition alloc (a : Account.t) : M loc :=
  fun m => (Ok (length (heap m)), mkMem (heap m ++ [a]) (store m)).

(** zustand's [set({ accounts })] and [set({ tags })]: the partial state
    is merged into the current one. *)
Definition set_accounts (acs : list loc) (m : Mem) : Mem :=
  mkMem (heap m) (mkState acs (tags (store m))).

Definition set_tags (ts : list string) (m : Mem) : Mem :=
  mkMem (heap m) (mkState (accounts (store m)) ts).

(** ** The blockchain store, read by [getTx] and [syncWallet] *)

Record BlockchainState : Type := mkBlockchain {
  backend : string;
  network : string;
  retries : Z;
  stopGap : Z;
  timeout : Z;
  url : string
}.

(** ** The accounts store *)

Section AccountsStore.

(** [useBlockchainStore.getState()] *)
Variable blockchain : BlockchainState.

(** [new MempoolOracle(url).getTransaction(txid)], the remote
    chain-indexer capability. *)
Variable oracle_getTransaction : string -> string -> Outcome TxData.t.

(** The wallet library: its handle and configuration types,
    [getBlockchainConfig], [syncWallet] of api/bdk and [getWalletData]. *)
Variables Wallet Config : Type.
Variable getBlockchainConfig : string -> string -> Z * Z * Z -> Config.
Variable bdk_syncWallet : Wallet -> string -> Config -> Outcome unit.
Variable getWalletData : Wallet -> string -> Outcome WalletData.t.

(** [getTags] and [setTags]. *)
Definition getTags (m : Mem) : list string := tags (store m).

Definition setTags (ts : list string) (m : Mem) : Mem := set_tags ts m.

(** [getCurrentAccount]: the first account with the name, or [undefined]. *)
Definition getCurrentAccount (name : string) (m : Mem) : Js.ref loc :=
  Js.find (name_is (heap m) name) (accounts (store m)).

(** [hasAccountWithName]: [!!] of the same lookup. *)
Definition hasAccountWithName (name : string) (m : Mem) : bool :=
  match getCurrentAccount name m with
  | Js.obj _ => true
  | _ => false
  end.

(** [addAccount]: the recipe pushes the reference it was given. *)
Definition addAccount (account : loc) : M unit :=
  fun m =>
    (Ok tt, set_accounts (Js.push (accounts (store m)) account) m).

(** [updateAccount]: [if (index !== -1) state.accounts[index] = account]. *)
Definition updateAccount (account : loc) : M unit :=
  a <- deref account ;;
  fun m =>
    let index :=
      Js.findIndex (name_is (heap m) (Account.name a)) (accounts (store m)) in
    if negb (index =? -1)
    then (Ok tt, set_accounts (Js.set_at (accounts (store m)) index account) m)
    else (Ok tt, m).

(** [deleteAccounts]: [set(() => ({ accounts: [] }))], a merge. *)
Definition deleteAccounts (m : Mem) : Mem := set_accounts [] m.

(** [getTx]: the guard is [transaction !== null]; what follows it is the
    fetch from the indexer, the push onto [account.transactions] and the
    un-awaited [updateAccount]. *)
Definition getTx (accountName txid : string) : M (Js.ref Transaction.t) :=
  account <- as_object (getCurrentAccount accountName) ;;
  a <- deref account ;;
  let transaction :=
    Js.find (fun tx => String.eqb (Transaction.id tx) txid)
            (Account.transactions a) in
  if Js.neq_null transaction then ret transaction
  else
    data <- await (oracle_getTransaction (url blockchain) txid) ;;
    let transaction :=
      Transaction.mk (TxData.txid data) Transaction.receive 0 0
        (TxData.status_block_time data) (TxData.size data)
        (map (fun out => TxOutput.mk (TxOut.value out)
                                     (TxOut.scriptpubkey_address out))
             (TxData.vout data)) in
    exec mutate account (fun a =>
      Account.with_transactions a
        (Js.push (Account.transactions a) transaction)) ;;
    exec unawaited (updateAccount account) ;;
    ret (Js.obj transaction).

(** [getUtxo]: the guard is [utxo !== undefined && utxo !== null], so
    only an object is returned from the cache; [tx.vout[vout].value] is a
    [TypeError] when [tx] or [tx.vout[vout]] is [undefined]. *)
Definition getUtxo (accountName txid : string) (vout : Z) : M Utxo.t :=
  account <- as_object (getCurrentAccount accountName) ;;
  a <- deref account ;;
  match Js.find (Utxo.has_key txid vout) (Account.utxos a) with
  | Js.obj utxo => ret utxo
  | _ =>
      tx <- getTx accountName txid ;;
      match tx with
      | Js.obj tx =>
          match Js.at_ (Transaction.vout tx) vout with
          | Js.obj out =>
              let utxo :=
                Utxo.mk txid vout (TxOutput.value out)
                  (Transaction.timestamp tx) (TxOutput.address out)
                  Utxo.external None in
              exec mutate account (fun a =>
                Account.with_utxos a (Js.push (Account.utxos a) utxo)) ;;
              exec unawaited (updateAccount account) ;;
              ret utxo
          | _ => throw TypeError
          end
      | _ => throw TypeError
      end
  end.

(** The recipe of [setUtxoLabel], run by [set(produce(...))]:
    [state.accounts[index].utxos[utxoIndex].label = label].  Assigning the
    value a property already has changes nothing; otherwise the account
    is copied with the label set and the copy takes its place. *)
Definition label_recipe (accountName : string) (utxoIndex : Z)
    (label : string) : M unit :=
  fun m =>
    let index :=
      Js.findIndex (name_is (heap m) accountName) (accounts (store m)) in
    match Js.at_ (accounts (store m)) index with
    | Js.obj l =>
        match heap m !! l with
        | Some a =>
            match Js.at_ (Account.utxos a) utxoIndex with
            | Js.obj u =>
                if bool_decide (Utxo.label u = Some label) then (Ok tt, m)
                else
                  let a' :=
                    Account.with_utxos a
                      (Js.set_at (Account.utxos a) utxoIndex
                                 (Utxo.with_label u label)) in
                  (Ok tt,
                   mkMem (heap m ++ [a'])
                     (mkState
                        (Js.set_at (accounts (store m)) index
                                   (length (heap m)))
                        (tags (store m))))
            | _ => (Throw TypeError, m)
            end
        | None => (Throw TypeError, m)
        end
    | _ => (Throw TypeError, m)
    end.

(** [setUtxoLabel]: after the [await] of [getUtxo] the index is read
    from [account.utxos.length], through the same reference. *)
Definition setUtxoLabel (accountName txid : string) (vout : Z)
    (label : string) : M unit :=
  account <- as_object (getCurrentAccount accountName) ;;
  a <- deref account ;;
  let utxoIndex := Js.findIndex (Utxo.has_key txid vout) (Account.utxos a) in
  utxoIndex <-
    (if utxoIndex =? -1
     then
       exec getUtxo accountName txid vout ;;
       a <- deref account ;;
       ret (Z.of_nat (length (Account.utxos a)))
     else ret utxoIndex) ;;
  label_recipe accountName utxoIndex label.

(** [syncWallet]: [{ ...account, transactions, utxos, summary }] is a
    new object. *)
Definition syncWallet (wallet : Wallet) (account : loc) : M loc :=
  let opts := (retries blockchain, stopGap blockchain, timeout blockchain) in
  exec await (bdk_syncWallet wallet (backend blockchain)
                (getBlockchainConfig (backend blockchain) (url blockchain)
                                     opts)) ;;
  d <- await (getWalletData wallet (network blockchain)) ;;
  a <- deref account ;;
  alloc (Account.mk (Account.name a) (WalletData.transactions d)
           (WalletData.utxos d) (WalletData.summary d) (Account.props a)).

End AccountsStore.

(** ** The label-import screen *)

Section LabelImport.

(** What a parser hands to the store: [JSON.parse] gives [any]. *)
Variable Labels : Type.

(** The built-in [JSON.parse]: a [SyntaxError] when the text is not
    valid JSON. *)
Variable JSON_parse : string -> Outcome Labels.

(** [CSVtoLabels] of utils/bip329. *)
Variable CSVtoLabels : string -> Outcome Labels.

(** [state.importLabels], the store action the screen selects. *)
Variable importLabelsToAccount : string -> Labels -> Outcome unit.

(** What the handler does to the outside, in order. *)
Inductive Event : Type :=
| ConsoleLog (labels : Labels)
| ImportLabels (accountId : string) (labels : Labels)
| RouterBack.

(** The handler is a plain function with no [try]: the outcome is the
    first exception raised, with the effects performed before it. *)
Definition importLabelsFromClipboard
    (accountId importType importContent : string)
  : Outcome unit * list Event :=
  match (if String.eqb importType "JSON"
         then JSON_parse importContent
         else CSVtoLabels importContent) with
  | Throw e => (Throw e, [])
  | Ok labels =>
      match importLabelsToAccount accountId labels with
      | Throw e => (Throw e, [ConsoleLog labels])
      | Ok _ =>
          (Ok tt,
           [ConsoleLog labels; ImportLabels accountId labels; RouterBack])
      end
  end.

End LabelImport.

Arguments ConsoleLog {Labels} labels.
Arguments ImportLabels {Labels} accountId labels.
Arguments RouterBack {Labels}.

(** ** The built-in [JSON.parse], after the JSON grammar (ECMA-404) *)

Module Json.

(** A parsed value.  Numbers and strings keep their source text (escape
    sequences are checked, not decoded). *)
#[local] Unset Elimination Schemes.
Inductive t : Type :=
| null
| bool (b : Datatypes.bool)
| number (literal : list ascii)
| str (text : list ascii)
| array (elements : list t)
| object (members : list (list ascii * t)).

#[local] Set Elimination Schemes.

Inductive result (T : Type) : Type :=
| parsed (v : T) (rest : list ascii)
| syntax_error
| out_of_fuel.
Arguments parsed {T} v rest.
Arguments syntax_error {T}.
Arguments out_of_fuel {T}.

Definition is_ws (c : ascii) : Datatypes.bool :=
  let n := nat_of_ascii c in
  (n =? 32)%nat || (n =? 9)%nat || (n =? 10)%nat || (n =? 13)%nat.

Fixpoint skip_ws (s : list ascii) : list ascii :=
  match s with
  | c :: r => if is_ws c then skip_ws r else s
  | [] => []
  end.

Definition is_digit (c : ascii) : Datatypes.bool :=
  let n := nat_of_ascii c in (48 <=? n)%nat && (n <=? 57)%nat.

Definition is_hex (c : ascii) : Datatypes.bool :=
  let n := nat_of_ascii c in
  is_digit c || ((65 <=? n)%nat && (n <=? 70)%nat)
             || ((97 <=? n)%nat && (n <=? 102)%nat).

Fixpoint digits (s : list ascii) : list ascii * list ascii :=
  match s with
  | c :: r =>
      if is_digit c then let (ds, r') := digits r in (c :: ds, r') else ([], s)
  | [] => ([], [])
  end.

(** A number: an optional minus sign, an integer part without leading
    zeros, an optional fraction and an optional exponent. *)
Definition number_literal (s : list ascii) : result (list ascii) :=
  let (sign, s1) :=
    match s with
    | "-"%char :: r => (["-"%char], r)
    | _ => ([], s)
    end in
  let int_part :=
    match s1 with
    | "0"%char :: r => Some (["0"%char], r)
    | c :: r => if is_digit c then let (ds, r') := digits r in Some (c :: ds, r')
                else None
    | [] => None
    end in
  match int_part with
  | None => syntax_error
  | Some (int, s2) =>
      let frac_part :=
        match s2 with
        | "."%char :: r =>
            match digits r with
            | ([], _) => None
            | (ds, r') => Some ("."%char :: ds, r')
            end
        | _ => Some ([], s2)
        end in
      match frac_part with
      | None => syntax_error
      | Some (frac, s3) =>
          let exponent (e : ascii) (r : list ascii) :=
            let (esign, r1) :=
              match r with
              | "+"%char :: r' => (["+"%char], r')
              | "-"%char :: r' => (["-"%char], r')
              | _ => ([], r)
              end in
            match digits r1 with
            | ([], _) => syntax_error
            | (ds, r') => parsed (sign ++ int ++ frac ++ e :: esign ++ ds) r'
            end in
          match s3 with
          | "e"%char :: r => exponent "e"%char r
          | "E"%char :: r => exponent "E"%char r
          | _ => parsed (sign ++ int ++ frac) s3
          end
      end
  end.

Definition is_simple_escape (c : ascii) : Datatypes.bool :=
  existsb (Ascii.eqb c)
    ["034"%char; "\"%char; "/"%char; "b"%char; "f"%char; "n"%char; "r"%char;
     "t"%char].

(** The characters of a string up to its closing quote. *)
Fixpoint string_body (s : list ascii) : result (list ascii) :=
  match s with
  | [] => syntax_error
  | "034"%char :: r => parsed [] r
  | "\"%char :: "u"%char :: h1 :: h2 :: h3 :: h4 :: r =>
      if is_hex h1 && is_hex h2 && is_hex h3 && is_hex h4
      then match string_body r with
           | parsed cs r' =>
               parsed ("\"%char :: "u"%char :: h1 :: h2 :: h3 :: h4 :: cs) r'
           | e => e
           end
      else syntax_error
  | "\"%char :: c :: r =>
      if is_simple_escape c
      then match string_body r with
           | parsed cs r' => parsed ("\"%char :: c :: cs) r'
           | e => e
           end
      else syntax_error
  | c :: r =>
      if (nat_of_ascii c <? 32)%nat then syntax_error
      else match string_body r with
           | parsed cs r' => parsed (c :: cs) r'
           | e => e
           end
  end.

Fixpoint value (fuel : nat) (s : list ascii) : result t :=
  match fuel with
  | O => out_of_fuel
  | S fuel =>
      match skip_ws s with
      | "n"%char :: "u"%char :: "l"%char :: "l"%char :: r => parsed null r
      | "t"%char :: "r"%char :: "u"%char :: "e"%char :: r =>
          parsed (bool true) r
      | "f"%char :: "a"%char :: "l"%char :: "s"%char :: "e"%char :: r =>
          parsed (bool false) r
      | "034"%char :: r =>
          match string_body r with
          | parsed cs r' => parsed (str cs) r'
          | syntax_error => syntax_error
          | out_of_fuel => out_of_fuel
          end
      | "["%char :: r =>
          match skip_ws r with
          | "]"%char :: r' => parsed (array []) r'
          | _ => elements fuel r []
          end
      | "{"%char :: r =>
          match skip_ws r with
          | "}"%char :: r' => parsed (object []) r'
          | _ => members fuel r []
          end
      | s' =>
          match number_literal s' with
          | parsed lit r => parsed (number lit) r
          | syntax_error => syntax_error
          | out_of_fuel => out_of_fuel
          end
      end
  end

with elements (fuel : nat) (s : list ascii) (acc : list t) : result t :=
  match fuel with
  | O => out_of_fuel
  | S fuel =>
      match value fuel s with
      | parsed v r =>
          match skip_ws r with
          | ","%char :: r' => elements fuel r' (acc ++ [v])
          | "]"%char :: r' => parsed (array (acc ++ [v])) r'
          | _ => syntax_error
          end
      | e => e
      end
  end

with members (fuel : nat) (s : list ascii) (acc : list (list ascii * t))
  : result t :=
  match fuel with
  | O => out_of_fuel
  | S fuel =>
      match skip_ws s with
      | "034"%char :: r =>
          match string_body r with
          | parsed k r1 =>
              match skip_ws r1 with
              | ":"%char :: r2 =>
                  match value fuel r2 with
                  | parsed v r3 =>
                      match skip_ws r3 with
                      | ","%char :: r' => members fuel r' (acc ++ [(k, v)])
                      | "}"%char :: r' =>
                          parsed (object (acc ++ [(k, v)])) r'
                      | _ => syntax_error
                      end
                  | e => e
                  end
              | _ => syntax_error
              end
          | syntax_error => syntax_error
          | out_of_fuel => out_of_fuel
          end
      | _ => syntax_error
      end
  end.

(** [JSON.parse(text)]: one value between optional white space, a
    [SyntaxError] otherwise.  The fuel bounds the nesting of calls; running
    out of it is kept apart from a syntax error. *)
Definition parse (text : string) : Outcome t :=
  let s := list_ascii_of_string text in
  match value (2 * length s + 2) s with
  | parsed v r =>
      match skip_ws r with
      | [] => Ok v
      | _ => Throw SyntaxError
      end
  | syntax_error => Throw SyntaxError
  | out_of_fuel => Throw (Rejected "out of fuel")
  end.

End Json.

(** Stand-ins for the witness of the import property, where JSON import
    is selected: a CSV parser that is never consulted and a store action
    that accepts every label set. *)
Definition csv_not_selected (text : string) : Outcome Json.t :=
  Throw (Rejected "CSV import is not selected").

Definition accept_labels (accountId : string) (labels : Json.t)
  : Outcome unit :=
  Ok tt.

(** ** Worked stores *)

(** Two accounts named "w" that differ in another property. *)
Definition dup_old : Account.t :=
  Account.mk "w" [] [] [("balanceSats"%string, 150000)]
             [("scriptVersion", "P2WPKH")%string].

Definition dup_new : Account.t :=
  Account.mk "w" [] [] [] [("scriptVersion", "P2PKH")%string].

(** A store that holds [dup_old]; [dup_new] is an object not yet added. *)
Definition dup_mem : Mem := mkMem [dup_old; dup_new] (mkState [0%nat] []).

(** A store with three accounts "a", "w", "w" and a fourth object named
    "w" that is not in the store. *)
Definition upd_mem : Mem :=
  mkMem [Account.mk "a" [] [] [] []; dup_old; dup_old; dup_new]
        (mkState [0%nat; 1%nat; 2%nat] ["kyc"%string]).

Definition cached_tx : Transaction.t :=
  Transaction.mk "ab" Transaction.receive 0 0 1700000000 225
                 [TxOutput.mk 5000 "bc1qxy"; TxOutput.mk 700 "bc1qzz"].

Definition cache_mem : Mem :=
  mkMem [Account.mk "w" [cached_tx] [] [] []] (mkState [0%nat] []).

Definition mainnet : BlockchainState :=
  mkBlockchain "electrum" "bitcoin" 5 20 6 "https://mempool.space/api".

(** An indexer that answers every request. *)
Definition indexer_up (url txid : string) : Outcome TxData.t :=
  Ok (TxData.mk txid 141 1700000600 [TxOut.mk 1200 "bc1qaa"]).

(** The UTXO that [getUtxo] derives from output 0 of [cached_tx]. *)
Definition derived_utxo : Utxo.t :=
  Utxo.mk "ab" 0 5000 1700000000 "bc1qxy" Utxo.external None.

Definition cache_mem_with_utxo : Mem :=
  mkMem [Account.mk "w" [cached_tx] [derived_utxo] [] []] (mkState [0%nat] []).

(** A wallet library that resolves with one transaction and one UTXO. *)
Definition synced_data : WalletData.t :=
  WalletData.mk [cached_tx] [derived_utxo] [("balanceSats"%string, 5000)].

(** ** Further code of the screens *)

(** The identity of a UTXO in the lookups of the store:
    [u.txid === txid && u.vout === vout]. *)
Definition utxo_key (u : Utxo.t) : string * Z := (Utxo.txid u, Utxo.vout u).

(** [utxosValue] of the UTXO selection screen:
    [utxos.reduce((acc, utxo) => acc + utxo.value, 0)]. *)
Definition utxosValue (utxos : list Utxo.t) : Z :=
  fold_left (fun acc utxo => acc + Utxo.value utxo) utxos 0.

(** A computation that leaves the tags of the store as they are. *)
Definition keeps_tags {T} (c : M T) : Prop :=
  forall m, tags (store (snd (c m))) = tags (store m).

(** *** Import of labels from a file *)

Section LabelImportFile.

Variable Labels : Type.
Variable JSON_parse : string -> Outcome Labels.
Variable CSVtoLabels : string -> Outcome Labels.
Variable importLabelsToAccount : string -> Labels -> Outcome unit.

(** [pickFile({ type })] of utils/filesystem, awaited. *)
Variable pickFile : string -> Outcome string.

(** [importLabels]: the file variant of the handler; it does not log. *)
Definition importLabels (accountId importType : string)
  : Outcome unit * list (Event Labels) :=
  let type :=
    if String.eqb importType "JSON" then "application/json"%string
    else "text/csv"%string in
  match pickFile type with
  | Throw e => (Throw e, [])
  | Ok fileContent =>
      match (if String.eqb importType "JSON"
             then JSON_parse fileContent
             else CSVtoLabels fileContent) with
      | Throw e => (Throw e, [])
      | Ok labels =>
          match importLabelsToAccount accountId labels with
          | Throw e => (Throw e, [])
          | Ok _ => (Ok tt, [ImportLabels accountId labels; RouterBack])
          end
      end
  end.

End LabelImportFile.

(** What the file variant leaves out of the clipboard variant. *)
Definition is_log {Labels} (ev : Event Labels) : bool :=
  match ev with
  | ConsoleLog _ => true
  | _ => false
  end.

(** *** The inactivity lock of the root layout *)

Module Lock.

(** [AppStateStatus] of react-native. *)
Inductive AppStateStatus : Type :=
| active
| background
| inactive
| unknown
| extension.

(** [appState.current.match(/background/)], as a truth value. *)
Definition match_background (s : AppStateStatus) : bool :=
  match s with
  | background => true
  | _ => false
  end.

(** [nextAppState === s] *)
Definition status_eqb (a b : AppStateStatus) : bool :=
  match a, b with
  | active, active | background, background | inactive, inactive
  | unknown, unknown | extension, extension => true
  | _, _ => false
  end.

(** Modelled from the spec: the storage module (storage/mmkv) is missing;
    the last-background timestamp is a value of the key-value store,
    [undefined] until it is first set, and read back as it was set.
    [current] is the ref [appState.current]. *)
Record t : Type := mk {
  current : AppStateStatus;
  lastBackgroundTimestamp : option Z
}.

(** Calls made on the auth store. *)
Inductive AuthCall : Type :=
| setLockTriggered (locked : bool).

Section Handler.

(** [authStore.requiresAuth] and [authStore.lockDeltaTime] (seconds), as
    the handler's closure holds them. *)
Variable requiresAuth : bool.
Variable lockDeltaTime : Z.

(** [(Date.now() - (inactivityStartTime || 0)) / 1000], with [now] the
    value of [Date.now()] in milliseconds; the quotient is the exact
    rational. *)
Definition elapsed (now : Z) (inactivityStartTime : option Z) : Q :=
  (inject_Z (now - match inactivityStartTime with
                   | Some ts => ts
                   | None => 0
                   end) / inject_Z 1000)%Q.

(** [handleAppStateChanged(nextAppState)] *)
Definition handleAppStateChanged (now : Z) (nextAppState : AppStateStatus)
    (s : t) : t * list AuthCall :=
  if status_eqb nextAppState background && requiresAuth
  then (mk nextAppState (Some now), [])
  else if status_eqb nextAppState active && match_background (current s)
          && requiresAuth
  then
    if Qle_bool (inject_Z lockDeltaTime)
                (elapsed now (lastBackgroundTimestamp s))
    then (mk nextAppState (lastBackgroundTimestamp s), [setLockTriggered true])
    else (mk nextAppState (lastBackgroundTimestamp s), [])
  else (mk nextAppState (lastBackgroundTimestamp s), []).

(** A run of the handler over the status changes delivered by the
    platform, each with the clock value at which it arrives. *)
Fixpoint run (events : list (Z * AppStateStatus)) (s : t)
  : t * list AuthCall :=
  match events with
  | [] => (s, [])
  | (now, next) :: rest =>
      let (s1, c1) := handleAppStateChanged now next s in
      let (s2, c2) := run rest s1 in
      (s2, c1 ++ c2)
  end.

End Handler.

End Lock.

(** *** The transaction list of the account screen *)

Module TxnList.

(** The fields of a transaction the list reads: [txid] and [timestamp],
    a date that may be missing. *)
Record txn : Type := mk {
  txid : string;
  timestamp : option Z
}.

(** [new Date(txn.timestamp)?.getTime() || 0]: the time in milliseconds,
    [0] for a missing date. *)
Definition time_or_0 (t : txn) : Z :=
  match timestamp t with
  | Some ms => ms
  | None => 0
  end.

Definition txnSortAsc (txn1 txn2 : txn) : Z := time_or_0 txn1 - time_or_0 txn2.

Definition txnSortDesc (txn1 txn2 : txn) : Z := time_or_0 txn2 - time_or_0 txn1.

(** [Array.prototype.sort(compare)]: the stable ordering by [compare]. *)
Fixpoint insert (compare : txn -> txn -> Z) (x : txn) (l : list txn)
  : list txn :=
  match l with
  | [] => [x]
  | y :: r =>
      if compare x y <=? 0 then x :: l else y :: insert compare x r
  end.

Fixpoint sort (compare : txn -> txn -> Z) (l : list txn) : list txn :=
  match l with
  | [] => []
  | x :: r => insert compare x (sort compare r)
  end.

(** [transactions.sort(sortAsc ? txnSortAsc : txnSortDesc)] *)
Definition displayed (sortAsc : bool) (transactions : list txn) : list txn :=
  sort (if sortAsc then txnSortAsc else txnSortDesc) transactions.

End TxnList.

(** ** Worked inputs for the further code *)

Definition second_utxo : Utxo.t :=
  Utxo.mk "ab" 1 700 1700000000 "bc1qzz" Utxo.external (Some "rent"%string).

(** Account "w" with both outputs of [cached_tx] among its UTXOs, next to
    an account "x". *)
Definition two_utxo_mem : Mem :=
  mkMem [Account.mk "w" [cached_tx] [derived_utxo; second_utxo] [] [];
         Account.mk "x" [] [] [] []]
        (mkState [0%nat; 1%nat] ["kyc"%string]).

(** * Properties *)

(** ** Array lookups *)

Section ArrayLemmas.

Context {T : Type}.
Variable p : T -> bool.

Lemma find_neq_null (l : list T) : Js.neq_null (Js.find p l) = true.
Proof.
  induction l as [|x r IH]; simpl; [reflexivity|].
  destruct (p x); [reflexivity | exact IH].
Qed.

Lemma find_not_null (l : list T) : Js.find p l <> Js.null.
Proof.
  intros H. pose proof (find_neq_null l) as N. rewrite H in N. discriminate.
Qed.

(** A hit of [find] splits the array at the first match. *)
Lemma find_obj_split (l : list T) (x : T) :
  Js.find p l = Js.obj x ->
  exists pre post,
    l = pre ++ x :: post /\ Forall (fun y => p y = false) pre /\ p x = true.
Proof.
  induction l as [|y r IH]; simpl; [discriminate|].
  destruct (p y) eqn:E.
  - intros [= ->]. exists [], r. auto.
  - intros H. destruct (IH H) as (pre & post & -> & Hpre & Hx).
    exists (y :: pre), post. repeat split; auto.
Qed.

Lemma find_split (pre post : list T) (x : T) :
  Forall (fun y => p y = false) pre -> p x = true ->
  Js.find p (pre ++ x :: post) = Js.obj x.
Proof.
  induction 1 as [|y pre Hy _ IH]; simpl; intros Hx.
  - rewrite Hx. reflexivity.
  - rewrite Hy. auto.
Qed.

Lemma find_none (l : list T) :
  Forall (fun y => p y = false) l -> Js.find p l = Js.undefined.
Proof.
  induction 1 as [|y r Hy _ IH]; simpl; [reflexivity|].
  rewrite Hy. exact IH.
Qed.

Lemma find_undefined_all (l : list T) :
  Js.find p l = Js.undefined -> Forall (fun y => p y = false) l.
Proof.
  induction l as [|y r IH]; simpl; [constructor|].
  destruct (p y) eqn:E; [discriminate|]. auto.
Qed.

Lemma findIndex_from_split (pre post : list T) (x : T) (i : Z) :
  Forall (fun y => p y = false) pre -> p x = true ->
  Js.findIndex_from p (pre ++ x :: post) i = i + Z.of_nat (length pre).
Proof.
  intros Hpre Hx. revert i.
  induction Hpre as [|y pre Hy _ IH]; simpl; intros i.
  - rewrite Hx. lia.
  - rewrite Hy, IH. lia.
Qed.

Lemma findIndex_split (pre post : list T) (x : T) :
  Forall (fun y => p y = false) pre -> p x = true ->
  Js.findIndex p (pre ++ x :: post) = Z.of_nat (length pre).
Proof.
  intros. unfold Js.findIndex. rewrite findIndex_from_split; auto.
Qed.

Lemma findIndex_from_none (l : list T) (i : Z) :
  Forall (fun y => p y = false) l -> Js.findIndex_from p l i = -1.
Proof.
  intros H. revert i.
  induction H as [|y r Hy _ IH]; simpl; intros i; [reflexivity|].
  rewrite Hy. apply IH.
Qed.

Lemma findIndex_none (l : list T) :
  Forall (fun y => p y = false) l -> Js.findIndex p l = -1.
Proof. apply findIndex_from_none. Qed.

End ArrayLemmas.

Lemma at_split {T} (pre post : list T) (x : T) :
  Js.at_ (pre ++ x :: post) (Z.of_nat (length pre)) = Js.obj x.
Proof.
  unfold Js.at_.
  destruct (Z.ltb_spec (Z.of_nat (length pre)) 0) as [H|_]; [lia|].
  rewrite Nat2Z.id, list_lookup_middle; reflexivity.
Qed.

Lemma set_at_split {T} (pre post : list T) (x y : T) :
  Js.set_at (pre ++ x :: post) (Z.of_nat (length pre)) y = pre ++ y :: post.
Proof.
  unfold Js.set_at. rewrite Nat2Z.id.
  replace (length pre) with (length pre + 0)%nat by lia.
  rewrite insert_app_r. reflexivity.
Qed.

Lemma find_ext {T} (p q : T -> bool) (l : list T) :
  Forall (fun y => p y = q y) l -> Js.find p l = Js.find q l.
Proof.
  induction 1 as [|y r Hy _ IH]; simpl; [reflexivity|].
  rewrite Hy, IH. reflexivity.
Qed.

Lemma findIndex_ext {T} (p q : T -> bool) (l : list T) :
  Forall (fun y => p y = q y) l -> Js.findIndex p l = Js.findIndex q l.
Proof.
  unfold Js.findIndex. intros H. generalize 0.
  induction H as [|y r Hy _ IH]; simpl; intros z; [reflexivity|].
  rewrite Hy, IH. reflexivity.
Qed.

(** ** Accounts: add, look up, update, delete *)

Lemma name_is_self (h : list Account.t) (l : loc) (a : Account.t) :
  h !! l = Some a -> name_is h (Account.name a) l = true.
Proof. intros H. unfold name_is. rewrite H. apply String.eqb_refl. Qed.

Lemma hasAccountWithName_false (name : string) (m : Mem) :
  hasAccountWithName name m = false ->
  Forall (fun l => name_is (heap m) name l = false) (accounts (store m)).
Proof.
  unfold hasAccountWithName, getCurrentAccount. intros H.
  apply find_undefined_all.
  destruct (Js.find _ _) eqn:E; [discriminate | reflexivity |].
  exfalso. exact (find_not_null _ _ E).
Qed.

(** C4, as stated, fails: after [addAccount(A)] where an account named
    like [A] is already in the store, [getCurrentAccount(A.name)] returns
    the older account, which differs from [A]. *)
Lemma addAccount_duplicate_name_shadowed :
  heap dup_mem !! 1%nat = Some dup_new /\
  fst (addAccount 1%nat dup_mem) = Ok tt /\
  getCurrentAccount (Account.name dup_new) (snd (addAccount 1%nat dup_mem))
    = Js.obj 0%nat /\
  heap (snd (addAccount 1%nat dup_mem)) !! 0%nat = Some dup_old /\
  dup_old <> dup_new.
Proof. repeat split; discriminate. Qed.

(** C4, amended: when no account of the store has the name of [A]
    ([hasAccountWithName(A.name)] is false), [addAccount(A)] succeeds and
    [getCurrentAccount(A.name)] on the resulting store returns [A] itself,
    with its contents unchanged. *)
Theorem getCurrentAccount_after_addAccount (m : Mem) (l : loc) (a : Account.t) :
  heap m !! l = Some a ->
  hasAccountWithName (Account.name a) m = false ->
  exists m',
    addAccount l m = (Ok tt, m') /\
    getCurrentAccount (Account.name a) m' = Js.obj l /\
    heap m' !! l = Some a.
Proof.
  intros Hl Hno. eexists. split; [reflexivity|]. split; [|exact Hl].
  unfold getCurrentAccount, set_accounts, Js.push. simpl.
  apply find_split.
  - apply hasAccountWithName_false. exact Hno.
  - apply name_is_self. exact Hl.
Qed.

Lemma getCurrentAccount_after_addAccount_witness :
  exists m',
    addAccount 0%nat (mkMem [dup_new] (mkState [] [])) = (Ok tt, m') /\
    getCurrentAccount "w" m' = Js.obj 0%nat /\
    heap m' !! 0%nat = Some dup_new.
Proof.
  apply (getCurrentAccount_after_addAccount
           (mkMem [dup_new] (mkState [] [])) 0%nat dup_new);
    reflexivity.
Defined.

(** C5: [addAccount(A)] always succeeds and appends [A]: the accounts
    array grows by exactly one, [A] is its last element, every earlier
    element stays where it was, and neither the account objects nor the
    tags change.  No condition on the names already present. *)
Theorem addAccount_appends (m : Mem) (l : loc) :
  exists m',
    addAccount l m = (Ok tt, m') /\
    accounts (store m') = accounts (store m) ++ [l] /\
    length (accounts (store m')) = S (length (accounts (store m))) /\
    (forall i x, accounts (store m) !! i = Some x ->
                 accounts (store m') !! i = Some x) /\
    heap m' = heap m /\
    tags (store m') = tags (store m).
Proof.
  eexists. split; [reflexivity|]. simpl. unfold Js.push.
  repeat split.
  - rewrite length_app. simpl. lia.
  - intros i x H. apply lookup_app_l_Some. exact H.
Qed.

(** C7: [updateAccount(A)] succeeds; when some account of the store is
    named like [A], the first such entry is replaced by [A] and everything
    before and after it is kept in place; when none is, the memory is
    unchanged. *)
Theorem updateAccount_replaces_first (m : Mem) (l : loc) (a : Account.t) :
  heap m !! l = Some a ->
  (forall pre old post,
      accounts (store m) = pre ++ old :: post ->
      Forall (fun x => name_is (heap m) (Account.name a) x = false) pre ->
      name_is (heap m) (Account.name a) old = true ->
      updateAccount l m
      = (Ok tt, mkMem (heap m) (mkState (pre ++ l :: post) (tags (store m)))))
  /\
  (Forall (fun x => name_is (heap m) (Account.name a) x = false)
          (accounts (store m)) ->
   updateAccount l m = (Ok tt, m)).
Proof.
  intros Hl. split.
  - intros pre old post Hacc Hpre Hold.
    unfold updateAccount, bind, deref. rewrite Hl, Hacc.
    rewrite (findIndex_split _ pre post old Hpre Hold).
    destruct (Z.eqb_spec (Z.of_nat (length pre)) (-1)) as [E|_]; [lia|].
    simpl. unfold set_accounts. rewrite set_at_split. reflexivity.
  - intros Hnone.
    unfold updateAccount, bind, deref. rewrite Hl.
    rewrite (findIndex_none _ _ Hnone). reflexivity.
Qed.

Lemma updateAccount_replaces_first_witness :
  updateAccount 3%nat upd_mem
  = (Ok tt, mkMem (heap upd_mem) (mkState [0%nat; 3%nat; 2%nat] ["kyc"%string]))
  /\
  updateAccount 0%nat (mkMem [dup_new] (mkState [] []))
  = (Ok tt, mkMem [dup_new] (mkState [] [])).
Proof.
  split.
  - apply (proj1 (updateAccount_replaces_first upd_mem 3%nat dup_new eq_refl)
                 [0%nat] 1%nat [2%nat]).
    + reflexivity.
    + repeat constructor.
    + reflexivity.
  - apply (proj2 (updateAccount_replaces_first
                    (mkMem [dup_new] (mkState [] [])) 0%nat dup_new eq_refl)).
    constructor.
Defined.

(** C8: after [deleteAccounts()] the accounts array is empty and
    [getCurrentAccount(name)] is [undefined] for every name. *)
Theorem getCurrentAccount_after_deleteAccounts (m : Mem) (name : string) :
  accounts (store (deleteAccounts m)) = [] /\
  getCurrentAccount name (deleteAccounts m) = Js.undefined /\
  hasAccountWithName name (deleteAccounts m) = false.
Proof. repeat split. Qed.

(** C10: [deleteAccounts()] replaces the accounts array only; the tags
    of the store (and the account objects themselves) are what they were. *)
Theorem deleteAccounts_keeps_tags (m : Mem) :
  tags (store (deleteAccounts m)) = tags (store m) /\
  getTags (deleteAccounts m) = getTags m /\
  heap (deleteAccounts m) = heap m.
Proof. repeat split. Qed.

(** ** The store only holds live references *)

Lemma m_wf_initial : m_wf initial.
Proof. constructor. Qed.

Lemma addAccount_wf (m : Mem) (l : loc) :
  m_wf m -> (l < length (heap m))%nat -> m_wf (snd (addAccount l m)).
Proof.
  intros Hwf Hl. unfold m_wf, addAccount, set_accounts, Js.push. simpl.
  apply Forall_app. split; [exact Hwf | repeat constructor; exact Hl].
Qed.

Lemma updateAccount_wf (m : Mem) (l : loc) :
  m_wf m -> m_wf (snd (updateAccount l m)).
Proof.
  intros Hwf. unfold updateAccount, bind, deref.
  destruct (heap m !! l) as [a|] eqn:Hl; [|exact Hwf].
  destruct (negb _); [|exact Hwf].
  unfold m_wf, set_accounts, Js.set_at. simpl.
  apply Forall_insert; [exact Hwf|]. eapply lookup_lt_Some; exact Hl.
Qed.

Lemma deleteAccounts_wf (m : Mem) : m_wf (deleteAccounts m).
Proof. constructor. Qed.

(** ** Cached lookups: [getTx] and [getUtxo] *)

Lemma set_accounts_same (m : Mem) : set_accounts (accounts (store m)) m = m.
Proof. destruct m as [h [acs ts]]. reflexivity. Qed.

(** Mutating an object without renaming it does not change which
    references a name selects. *)
Lemma name_is_insert (h : list Account.t) (l : loc) (a a' : Account.t)
    (n : string) (x : loc) :
  h !! l = Some a -> Account.name a' = Account.name a ->
  name_is (<[l := a']> h) n x = name_is h n x.
Proof.
  intros Hl Hn. unfold name_is.
  destruct (decide (x = l)) as [->|Hne].
  - rewrite list_lookup_insert_eq by (eapply lookup_lt_Some; exact Hl).
    rewrite Hl, Hn. reflexivity.
  - rewrite list_lookup_insert_ne by congruence. reflexivity.
Qed.

Lemma getCurrentAccount_mutated (h : list Account.t) (s : AccountsState)
    (l : loc) (a a' : Account.t) (n : string) :
  h !! l = Some a -> Account.name a' = Account.name a ->
  getCurrentAccount n (mkMem (<[l := a']> h) s) = getCurrentAccount n (mkMem h s).
Proof.
  intros Hl Hn. unfold getCurrentAccount. simpl.
  apply find_ext, Forall_forall. intros x _.
  eapply name_is_insert; eassumption.
Qed.

(** An account found under its own name is written back onto itself. *)
Lemma updateAccount_self (m : Mem) (n : string) (l : loc) (a : Account.t) :
  getCurrentAccount n m = Js.obj l -> heap m !! l = Some a ->
  updateAccount l m = (Ok tt, m).
Proof.
  intros Hc Hl. unfold getCurrentAccount in Hc.
  destruct (find_obj_split _ _ _ Hc) as (pre & post & Hacc & Hpre & Hx).
  assert (Hname : Account.name a = n).
  { unfold name_is in Hx. rewrite Hl in Hx. apply String.eqb_eq. exact Hx. }
  unfold updateAccount, bind, deref. rewrite Hl, Hname, Hacc.
  rewrite (findIndex_split _ pre post l Hpre Hx).
  destruct (Z.eqb_spec (Z.of_nat (length pre)) (-1)) as [E|_]; [lia|].
  simpl. rewrite set_at_split, <- Hacc, set_accounts_same. reflexivity.
Qed.

Section Lookups.

Variable blockchain : BlockchainState.
Variable oracle_getTransaction : string -> string -> Outcome TxData.t.

(** [find] never yields [null], so the test [transaction !== null]
    always passes: [getTx] is the lookup in the cached transactions and
    nothing else, whatever the indexer would answer. *)
Lemma getTx_is_lookup (accountName txid : string) (m : Mem) :
  getTx blockchain oracle_getTransaction accountName txid m
  = match getCurrentAccount accountName m with
    | Js.obj l =>
        match heap m !! l with
        | Some a =>
            (Ok (Js.find (fun tx => String.eqb (Transaction.id tx) txid)
                         (Account.transactions a)), m)
        | None => (Throw TypeError, m)
        end
    | _ => (Throw TypeError, m)
    end.
Proof.
  unfold getTx, bind, as_object, deref.
  destruct (getCurrentAccount accountName m) as [l| |]; try reflexivity.
  destruct (heap m !! l) as [a|]; [|reflexivity].
  rewrite find_neq_null. reflexivity.
Qed.

Lemma find_push_miss {T} (p : T -> bool) (l : list T) (x : T) :
  (forall y, Js.find p l <> Js.obj y) ->
  p x = true -> Js.find p (Js.push l x) = Js.obj x.
Proof.
  intros Hmiss Hx. unfold Js.push. apply find_split; [|exact Hx].
  apply find_undefined_all.
  destruct (Js.find p l) as [y| |] eqn:E; [|reflexivity|].
  - exfalso. exact (Hmiss y eq_refl).
  - exfalso. exact (find_not_null _ _ E).
Qed.

Lemma has_key_refl (txid : string) (vout value ts : Z) (addr : string)
    (k : Utxo.keychain_t) (lbl : option string) :
  Utxo.has_key txid vout (Utxo.mk txid vout value ts addr k lbl) = true.
Proof.
  unfold Utxo.has_key. simpl. rewrite String.eqb_refl, Z.eqb_refl.
  reflexivity.
Qed.

(** A hit of [getUtxo]: the cached UTXO is returned, the memory is
    untouched. *)
Lemma getUtxo_hit (accountName txid : string) (vout : Z) (m : Mem)
    (l : loc) (a : Account.t) (u : Utxo.t) :
  getCurrentAccount accountName m = Js.obj l ->
  heap m !! l = Some a ->
  Js.find (Utxo.has_key txid vout) (Account.utxos a) = Js.obj u ->
  getUtxo blockchain oracle_getTransaction accountName txid vout m
  = (Ok u, m).
Proof.
  intros Hc Hl Hu. unfold getUtxo, bind, as_object, deref.
  rewrite Hc, Hl, Hu. reflexivity.
Qed.

(** The part of [getUtxo] after a miss in the cached UTXOs. *)
Lemma getUtxo_after_miss (accountName txid : string) (vout : Z) (m : Mem)
    (l : loc) (a : Account.t) :
  getCurrentAccount accountName m = Js.obj l ->
  heap m !! l = Some a ->
  (forall y, Js.find (Utxo.has_key txid vout) (Account.utxos a) <> Js.obj y) ->
  getUtxo blockchain oracle_getTransaction accountName txid vout m
  = match Js.find (fun tx => String.eqb (Transaction.id tx) txid)
                  (Account.transactions a) with
    | Js.obj tx =>
        match Js.at_ (Transaction.vout tx) vout with
        | Js.obj out =>
            let utxo :=
              Utxo.mk txid vout (TxOutput.value out)
                      (Transaction.timestamp tx) (TxOutput.address out)
                      Utxo.external None in
            (Ok utxo,
             mkMem (<[l := Account.with_utxos a
                              (Js.push (Account.utxos a) utxo)]> (heap m))
                   (store m))
        | _ => (Throw TypeError, m)
        end
    | _ => (Throw TypeError, m)
    end.
Proof.
  intros Hc Hl Hmiss.
  assert (Hback : forall a',
    Account.name a' = Account.name a ->
    updateAccount l (mkMem (<[l := a']> (heap m)) (store m))
    = (Ok tt, mkMem (<[l := a']> (heap m)) (store m))).
  { intros a' Hn. apply (updateAccount_self _ accountName l a').
    - rewrite (getCurrentAccount_mutated _ _ l a a' _ Hl Hn).
      destruct m; exact Hc.
    - simpl. apply list_lookup_insert_eq. eapply lookup_lt_Some; exact Hl. }
  unfold getUtxo, as_object, deref.
  unfold bind at 1 2. rewrite Hc, Hl.
  destruct (Js.find (Utxo.has_key txid vout) (Account.utxos a)) as [y| |];
    [exfalso; exact (Hmiss y eq_refl)| |];
    unfold bind at 1; rewrite getTx_is_lookup, Hc, Hl;
    (destruct (Js.find _ (Account.transactions a)) as [tx| |];
     [|reflexivity|reflexivity]);
    (destruct (Js.at_ (Transaction.vout tx) vout) as [out| |];
     [|reflexivity|reflexivity]);
    unfold bind, mutate, unawaited, ret; rewrite Hl, Hback;
    reflexivity.
Qed.

End Lookups.

Section LookupProperties.

Variable blockchain : BlockchainState.
Variable oracle_getTransaction : string -> string -> Outcome TxData.t.

Lemma getUtxo_ok_account (accountName txid : string) (vout : Z)
    (m m1 : Mem) (u : Utxo.t) :
  getUtxo blockchain oracle_getTransaction accountName txid vout m
  = (Ok u, m1) ->
  exists l a, getCurrentAccount accountName m = Js.obj l /\
              heap m !! l = Some a.
Proof.
  unfold getUtxo, as_object, deref. unfold bind at 1 2.
  destruct (getCurrentAccount accountName m) as [l| |]; try discriminate.
  destruct (heap m !! l) as [a|] eqn:Hl; try discriminate.
  intros _. exists l, a. split; [reflexivity | exact Hl].
Qed.

(** C3: when a call [getUtxo(accountName, txid, vout)] succeeds with a
    UTXO, calling it again with the same arguments succeeds with an
    equal UTXO and leaves the memory exactly as the first call left it:
    in particular nothing is appended to the account's UTXO array, whose
    length is therefore unchanged. *)
Theorem getUtxo_idempotent (accountName txid : string) (vout : Z)
    (m m1 : Mem) (u : Utxo.t) :
  getUtxo blockchain oracle_getTransaction accountName txid vout m
  = (Ok u, m1) ->
  getUtxo blockchain oracle_getTransaction accountName txid vout m1
  = (Ok u, m1).
Proof.
  intros H.
  destruct (getUtxo_ok_account _ _ _ _ _ _ H) as (l & a & Hc & Hl).
  destruct (Js.find (Utxo.has_key txid vout) (Account.utxos a)) as [y| |] eqn:Hf.
  - rewrite (getUtxo_hit _ _ _ _ _ _ _ _ y Hc Hl Hf) in H.
    injection H as -> ->.
    apply (getUtxo_hit _ _ _ _ _ _ l a); assumption.
  - assert (Hmiss : forall y,
      Js.find (Utxo.has_key txid vout) (Account.utxos a) <> Js.obj y)
      by (rewrite Hf; discriminate).
    rewrite (getUtxo_after_miss _ _ _ _ _ _ l a Hc Hl Hmiss) in H.
    destruct (Js.find _ (Account.transactions a)) as [tx| |];
      try discriminate.
    destruct (Js.at_ (Transaction.vout tx) vout) as [out| |];
      try discriminate.
    simpl in H. injection H as <- <-.
    eapply getUtxo_hit.
    + rewrite (getCurrentAccount_mutated _ _ l a _ _ Hl) by reflexivity.
      destruct m; exact Hc.
    + simpl. apply list_lookup_insert_eq. eapply lookup_lt_Some; exact Hl.
    + simpl. apply find_push_miss; [exact Hmiss | apply has_key_refl].
  - exfalso. exact (find_not_null _ _ Hf).
Qed.

End LookupProperties.

Lemma getUtxo_idempotent_witness :
  getUtxo mainnet indexer_up "w" "ab" 0 cache_mem
  = (Ok derived_utxo, cache_mem_with_utxo) /\
  getUtxo mainnet indexer_up "w" "ab" 0 cache_mem_with_utxo
  = (Ok derived_utxo, cache_mem_with_utxo).
Proof.
  split; [reflexivity|].
  apply (getUtxo_idempotent mainnet indexer_up "w" "ab" 0 cache_mem).
  reflexivity.
Defined.

(** C1, the code at a transaction that is not cached: the account "w"
    holds only the transaction "ab" and the indexer would answer, yet
    [getTx("w", "cd")] resolves to [undefined] without asking the indexer
    and without adding anything to the account: [find] yields [undefined]
    on a miss, which passes the guard [transaction !== null]. *)
Theorem getTx_uncached_resolves_undefined :
  getTx mainnet indexer_up "w" "cd" cache_mem = (Ok Js.undefined, cache_mem).
Proof. reflexivity. Qed.

(** ** Labels: [setUtxoLabel] *)

Lemma findIndex_from_miss_all {T} (p : T -> bool) (l : list T) (i : Z) :
  0 <= i -> Js.findIndex_from p l i = -1 -> Forall (fun y => p y = false) l.
Proof.
  revert i. induction l as [|y r IH]; simpl; intros i Hi H; [constructor|].
  destruct (p y) eqn:E; [lia|].
  constructor; [exact E|]. apply (IH (i + 1)); [lia | exact H].
Qed.

Lemma findIndex_miss_all {T} (p : T -> bool) (l : list T) :
  Js.findIndex p l = -1 -> Forall (fun y => p y = false) l.
Proof. apply findIndex_from_miss_all. lia. Qed.

Lemma at_length {T} (l : list T) :
  Js.at_ l (Z.of_nat (length l)) = Js.undefined.
Proof.
  unfold Js.at_.
  destruct (Z.ltb_spec (Z.of_nat (length l)) 0) as [_|_]; [reflexivity|].
  rewrite Nat2Z.id, lookup_ge_None_2 by lia. reflexivity.
Qed.

Lemma name_is_alloc (h : list Account.t) (a' : Account.t) (n : string)
    (x : loc) :
  (x < length h)%nat -> name_is (h ++ [a']) n x = name_is h n x.
Proof.
  intros Hx. unfold name_is. rewrite lookup_app_l by exact Hx. reflexivity.
Qed.

Lemma has_key_with_label (txid : string) (vout : Z) (u : Utxo.t)
    (label : string) :
  Utxo.has_key txid vout (Utxo.with_label u label) = Utxo.has_key txid vout u.
Proof. reflexivity. Qed.

Lemma with_label_same (u : Utxo.t) (label : string) :
  Utxo.label u = Some label -> Utxo.with_label u label = u.
Proof. destruct u. simpl. intros ->. reflexivity. Qed.

Section LabelProperties.

Variable blockchain : BlockchainState.
Variable oracle_getTransaction : string -> string -> Outcome TxData.t.

(** The recipe finds the account that [getCurrentAccount] finds. *)
Lemma label_recipe_bad_index (accountName label : string) (m : Mem)
    (l : loc) (a : Account.t) :
  getCurrentAccount accountName m = Js.obj l ->
  heap m !! l = Some a ->
  label_recipe accountName (Z.of_nat (length (Account.utxos a))) label m
  = (Throw TypeError, m).
Proof.
  intros Hc Hl. unfold getCurrentAccount in Hc.
  destruct (find_obj_split _ _ _ Hc) as (pre & post & Hacc & Hpre & Hx).
  unfold label_recipe. rewrite Hacc.
  rewrite (findIndex_split _ pre post l Hpre Hx), at_split, Hl, at_length.
  reflexivity.
Qed.

(** The label of a UTXO that is not cached cannot be set: once
    [getUtxo] has pushed the derived UTXO, [account.utxos.length] is one
    past its index, and the recipe dereferences [undefined]. *)
Lemma setUtxoLabel_uncached_rejects (accountName txid : string) (vout : Z)
    (label : string) (m : Mem) (l : loc) (a : Account.t) :
  getCurrentAccount accountName m = Js.obj l ->
  heap m !! l = Some a ->
  Js.findIndex (Utxo.has_key txid vout) (Account.utxos a) = -1 ->
  exists m',
    setUtxoLabel blockchain oracle_getTransaction accountName txid vout
                 label m
    = (Throw TypeError, m').
Proof.
  intros Hc Hl Hidx.
  assert (Hmiss : forall y,
    Js.find (Utxo.has_key txid vout) (Account.utxos a) <> Js.obj y).
  { intros y Hy. rewrite (find_none _ _ (findIndex_miss_all _ _ Hidx)) in Hy.
    discriminate. }
  unfold setUtxoLabel, as_object, deref. unfold bind at 1 2 3.
  rewrite Hc, Hl, Hidx. simpl.
  unfold bind at 1.
  rewrite (getUtxo_after_miss _ _ _ _ _ _ l a Hc Hl Hmiss).
  destruct (Js.find _ (Account.transactions a)) as [tx| |];
    [|eexists; reflexivity|eexists; reflexivity].
  destruct (Js.at_ (Transaction.vout tx) vout) as [out| |];
    [|eexists; reflexivity|eexists; reflexivity].
  cbv zeta. unfold bind, ret. simpl heap.
  rewrite list_lookup_insert_eq by (eapply lookup_lt_Some; exact Hl).
  eexists. apply label_recipe_bad_index with (l := l).
  - rewrite (getCurrentAccount_mutated _ _ l a _ _ Hl) by reflexivity.
    destruct m; exact Hc.
  - simpl. apply list_lookup_insert_eq. eapply lookup_lt_Some; exact Hl.
Qed.

(** The label of a cached UTXO is set, and [getUtxo] then returns that
    UTXO with the new label. *)
Lemma setUtxoLabel_cached_then_getUtxo (accountName txid : string)
    (vout : Z) (label : string) (m : Mem) (l : loc) (a : Account.t)
    (u : Utxo.t) :
  m_wf m ->
  getCurrentAccount accountName m = Js.obj l ->
  heap m !! l = Some a ->
  Js.find (Utxo.has_key txid vout) (Account.utxos a) = Js.obj u ->
  exists m',
    setUtxoLabel blockchain oracle_getTransaction accountName txid vout
                 label m
    = (Ok tt, m') /\
    getUtxo blockchain oracle_getTransaction accountName txid vout m'
    = (Ok (Utxo.with_label u label), m').
Proof.
  intros Hwf Hc Hl Hu.
  destruct (find_obj_split _ _ _ Hu) as (upre & upost & Hus & Hupre & Hux).
  pose proof Hc as Hc'. unfold getCurrentAccount in Hc'.
  destruct (find_obj_split _ _ _ Hc') as (pre & post & Hacc & Hpre & Hx).
  assert (Hname : Account.name a = accountName).
  { unfold name_is in Hx. rewrite Hl in Hx. apply String.eqb_eq. exact Hx. }
  unfold setUtxoLabel, as_object, deref. unfold bind at 1 2 3.
  rewrite Hc, Hl, Hus, (findIndex_split _ upre upost u Hupre Hux).
  destruct (Z.eqb_spec (Z.of_nat (length upre)) (-1)) as [E|_]; [lia|].
  unfold ret, label_recipe.
  rewrite Hacc, (findIndex_split _ pre post l Hpre Hx), at_split, Hl, Hus,
    at_split.
  destruct (bool_decide (Utxo.label u = Some label)) eqn:Hlab.
  - apply bool_decide_eq_true in Hlab.
    eexists. split; [reflexivity|].
    rewrite (with_label_same _ _ Hlab).
    apply (getUtxo_hit _ _ _ _ _ _ l a); assumption.
  - eexists. split; [reflexivity|].
    rewrite !set_at_split.
    eapply getUtxo_hit.
    + unfold getCurrentAccount. simpl. apply find_split.
      * unfold m_wf in Hwf. rewrite Hacc in Hwf.
        apply Forall_app in Hwf as [Hwf _].
        rewrite Forall_forall in Hwf, Hpre. apply Forall_forall.
        intros x Hin. rewrite name_is_alloc by (apply Hwf; exact Hin).
        apply Hpre. exact Hin.
      * unfold name_is. rewrite list_lookup_middle by reflexivity.
        simpl. rewrite Hname. apply String.eqb_refl.
    + simpl. apply list_lookup_middle. reflexivity.
    + simpl. apply find_split; [exact Hupre|].
      rewrite has_key_with_label. exact Hux.
Qed.

Lemma mutate_wf (l : loc) (f : Account.t -> Account.t) (m : Mem) :
  m_wf m -> m_wf (snd (mutate l f m)).
Proof.
  intros Hwf. unfold mutate. destruct (heap m !! l); [|exact Hwf].
  unfold m_wf. simpl. rewrite length_insert. exact Hwf.
Qed.

Lemma getUtxo_wf (accountName txid : string) (vout : Z) (m : Mem) :
  m_wf m ->
  m_wf (snd (getUtxo blockchain oracle_getTransaction accountName txid vout m)).
Proof.
  intros Hwf. unfold getUtxo, as_object, deref. unfold bind at 1 2.
  destruct (getCurrentAccount accountName m) as [l| |]; try exact Hwf.
  destruct (heap m !! l) as [a|] eqn:Hl; [|exact Hwf].
  destruct (Js.find (Utxo.has_key txid vout) (Account.utxos a)) as [y| |];
    [exact Hwf| |];
    unfold bind at 1; rewrite getTx_is_lookup;
    (destruct (getCurrentAccount accountName m) as [l0| |]; try exact Hwf);
    (destruct (heap m !! l0); [|exact Hwf]);
    (destruct (Js.find _ (Account.transactions _)) as [tx| |];
     try exact Hwf);
    (destruct (Js.at_ (Transaction.vout tx) vout) as [out| |];
     try exact Hwf);
    unfold bind, unawaited, ret;
    match goal with
    | |- context [mutate ?l ?f m] =>
        pose proof (mutate_wf l f m Hwf) as Hm;
        destruct (mutate l f m) as [[[]|e] m']; simpl in *;
        [apply updateAccount_wf; exact Hm | exact Hm]
    end.
Qed.

Lemma label_recipe_wf (accountName label : string) (utxoIndex : Z)
    (m : Mem) :
  m_wf m -> m_wf (snd (label_recipe accountName utxoIndex label m)).
Proof.
  intros Hwf. unfold label_recipe.
  destruct (Js.at_ (accounts (store m)) _) as [l| |]; try exact Hwf.
  destruct (heap m !! l) as [a|]; [|exact Hwf].
  destruct (Js.at_ (Account.utxos a) utxoIndex) as [u| |]; try exact Hwf.
  destruct (bool_decide _); [exact Hwf|].
  unfold m_wf, Js.set_at. simpl. rewrite length_app. simpl.
  apply Forall_insert; [|lia].
  eapply Forall_impl; [exact Hwf|]. simpl. intros x Hx. lia.
Qed.

End LabelProperties.

(** C2, the code at a UTXO that is not cached: output 0 of the cached
    transaction "ab" of account "w" is not among the account's UTXOs.
    [setUtxoLabel("w", "ab", 0, "coffee")] rejects with a [TypeError]
    after [getUtxo] has cached the UTXO, and [getUtxo("w", "ab", 0)] on
    the memory it leaves returns that UTXO without a label. *)
Theorem setUtxoLabel_uncached_leaves_no_label :
  setUtxoLabel mainnet indexer_up "w" "ab" 0 "coffee" cache_mem
  = (Throw TypeError, cache_mem_with_utxo) /\
  getUtxo mainnet indexer_up "w" "ab" 0 cache_mem_with_utxo
  = (Ok derived_utxo, cache_mem_with_utxo) /\
  Utxo.label derived_utxo = None.
Proof. repeat split. Qed.

(** ** Wallet synchronisation: [syncWallet] *)

Section SyncProperties.

Variable blockchain : BlockchainState.
Variables Wallet Config : Type.
Variable getBlockchainConfig : string -> string -> Z * Z * Z -> Config.
Variable bdk_syncWallet : Wallet -> string -> Config -> Outcome unit.
Variable getWalletData : Wallet -> string -> Outcome WalletData.t.

(** C6: when the wallet library's synchronisation and data retrieval
    both resolve, [syncWallet(wallet, A)] resolves to a new account
    object that has the name and the other properties of [A] and the
    transactions, UTXOs and summary the library returned; [A] and every
    other existing object are left as they were, and so is the store. *)
Theorem syncWallet_returns_fresh_copy (wallet : Wallet) (account : loc)
    (a : Account.t) (d : WalletData.t) (m : Mem) :
  bdk_syncWallet wallet (backend blockchain)
    (getBlockchainConfig (backend blockchain) (url blockchain)
       (retries blockchain, stopGap blockchain, timeout blockchain))
  = Ok tt ->
  getWalletData wallet (network blockchain) = Ok d ->
  heap m !! account = Some a ->
  exists l' a' m',
    syncWallet blockchain Wallet Config getBlockchainConfig bdk_syncWallet
               getWalletData wallet account m
    = (Ok l', m') /\
    heap m' !! l' = Some a' /\
    Account.name a' = Account.name a /\
    Account.props a' = Account.props a /\
    Account.transactions a' = WalletData.transactions d /\
    Account.utxos a' = WalletData.utxos d /\
    Account.summary a' = WalletData.summary d /\
    heap m !! l' = None /\
    heap m' !! account = Some a /\
    (forall l x, heap m !! l = Some x -> heap m' !! l = Some x) /\
    store m' = store m.
Proof.
  intros Hsync Hdata Hl.
  unfold syncWallet, bind, await, deref, alloc.
  rewrite Hsync, Hdata, Hl.
  eexists _, _, _. split; [reflexivity|]. simpl.
  split; [apply list_lookup_middle; reflexivity|].
  repeat split.
  - apply lookup_ge_None_2. lia.
  - apply lookup_app_l_Some. exact Hl.
  - intros l x H. apply lookup_app_l_Some. exact H.
Qed.

End SyncProperties.

Lemma syncWallet_returns_fresh_copy_witness :
  exists l' a' m',
    syncWallet mainnet nat string (fun backend url _ => (backend ++ url)%string)
               (fun _ _ _ => Ok tt) (fun _ _ => Ok synced_data)
               7%nat 0%nat (mkMem [dup_old] (mkState [0%nat] []))
    = (Ok l', m') /\
    heap m' !! l' = Some a' /\
    Account.name a' = "w"%string /\
    Account.props a' = Account.props dup_old /\
    Account.transactions a' = [cached_tx] /\
    Account.utxos a' = [derived_utxo] /\
    Account.summary a' = [("balanceSats"%string, 5000)] /\
    heap (mkMem [dup_old] (mkState [0%nat] [])) !! l' = None /\
    heap m' !! 0%nat = Some dup_old /\
    (forall l x, heap (mkMem [dup_old] (mkState [0%nat] [])) !! l = Some x ->
                 heap m' !! l = Some x) /\
    store m' = mkState [0%nat] [].
Proof.
  apply (syncWallet_returns_fresh_copy mainnet nat string
           (fun backend url _ => (backend ++ url)%string)
           (fun _ _ _ => Ok tt) (fun _ _ => Ok synced_data)
           7%nat 0%nat dup_old synced_data
           (mkMem [dup_old] (mkState [0%nat] [])));
    reflexivity.
Defined.

(** ** Label import *)

Section ImportProperties.

Variable Labels : Type.
Variable JSON_parse : string -> Outcome Labels.
Variable CSVtoLabels : string -> Outcome Labels.
Variable importLabelsToAccount : string -> Labels -> Outcome unit.

(** C9: the import handler does not guard its parser.  Whenever the
    parser selected by the import type ([JSON.parse] for "JSON",
    [CSVtoLabels] otherwise) raises an error on the content, the call of
    [importLabelsFromClipboard] raises that same error: nothing is logged
    or imported and the screen is not left. *)
Theorem importLabels_parse_error_uncaught
    (accountId importType importContent : string) (e : Exn) :
  (if String.eqb importType "JSON"
   then JSON_parse importContent
   else CSVtoLabels importContent) = Throw e ->
  importLabelsFromClipboard Labels JSON_parse CSVtoLabels
    importLabelsToAccount accountId importType importContent
  = (Throw e, []).
Proof.
  intros H. unfold importLabelsFromClipboard. rewrite H. reflexivity.
Qed.

End ImportProperties.

Lemma importLabels_parse_error_uncaught_witness :
  Json.parse "{" = Throw SyntaxError /\
  importLabelsFromClipboard Json.t Json.parse csv_not_selected accept_labels
    "w" "JSON" "{"
  = (Throw SyntaxError, []).
Proof.
  split; [reflexivity|].
  apply (importLabels_parse_error_uncaught Json.t Json.parse csv_not_selected
           accept_labels "w" "JSON" "{" SyntaxError).
  reflexivity.
Defined.

(** * Further properties *)

(** ** Lookups by name *)

Lemma find_obj_sound {T} (p : T -> bool) (l : list T) (x : T) :
  Js.find p l = Js.obj x -> p x = true /\ In x l.
Proof.
  intros H. destruct (find_obj_split _ _ _ H) as (pre & post & -> & _ & Hx).
  split; [exact Hx|]. apply in_or_app. right. left. reflexivity.
Qed.

Lemma find_truthy_existsb {T} (p : T -> bool) (l : list T) :
  match Js.find p l with Js.obj _ => true | _ => false end = existsb p l.
Proof.
  induction l as [|x r IH]; simpl; [reflexivity|].
  destruct (p x); [reflexivity | exact IH].
Qed.

Lemma hasAccountWithName_existsb (name : string) (m : Mem) :
  hasAccountWithName name m
  = existsb (name_is (heap m) name) (accounts (store m)).
Proof. apply find_truthy_existsb. Qed.

Lemma name_is_true (h : list Account.t) (n : string) (l : loc) :
  name_is h n l = true <-> exists a, h !! l = Some a /\ Account.name a = n.
Proof.
  unfold name_is. destruct (h !! l) as [a|].
  - rewrite String.eqb_eq. split.
    + intros E. exists a. auto.
    + intros (a' & [= <-] & E). exact E.
  - split; [discriminate | intros (a & E & _); discriminate].
Qed.

(** A replaced entry that answers a name test like the old one does not
    change the outcome of the search when neither matches. *)
Lemma find_replace_miss {T} (p : T -> bool) (pre post : list T) (x y : T) :
  p x = false -> p y = false ->
  Js.find p (pre ++ y :: post) = Js.find p (pre ++ x :: post).
Proof.
  intros Hx Hy. induction pre as [|z pre IH]; simpl.
  - rewrite Hx, Hy. reflexivity.
  - rewrite IH. reflexivity.
Qed.

(** The first half of [updateAccount]: the entry found is overwritten. *)
Lemma updateAccount_at (m : Mem) (l : loc) (a : Account.t)
    (pre post : list loc) (old : loc) :
  heap m !! l = Some a ->
  accounts (store m) = pre ++ old :: post ->
  Forall (fun x => name_is (heap m) (Account.name a) x = false) pre ->
  name_is (heap m) (Account.name a) old = true ->
  updateAccount l m
  = (Ok tt, mkMem (heap m) (mkState (pre ++ l :: post) (tags (store m)))).
Proof.
  intros Hl Hacc Hpre Hold.
  unfold updateAccount, bind, deref. rewrite Hl, Hacc.
  rewrite (findIndex_split _ pre post old Hpre Hold).
  destruct (Z.eqb_spec (Z.of_nat (length pre)) (-1)) as [E|_]; [lia|].
  simpl. unfold set_accounts. rewrite set_at_split. reflexivity.
Qed.

Lemma updateAccount_absent (m : Mem) (l : loc) (a : Account.t) :
  heap m !! l = Some a ->
  Forall (fun x => name_is (heap m) (Account.name a) x = false)
         (accounts (store m)) ->
  updateAccount l m = (Ok tt, m).
Proof.
  intros Hl Hnone. unfold updateAccount, bind, deref. rewrite Hl.
  rewrite (findIndex_none _ _ Hnone). reflexivity.
Qed.

Lemma updateAccount_dangling (m : Mem) (l : loc) :
  heap m !! l = None -> updateAccount l m = (Throw TypeError, m).
Proof. intros Hl. unfold updateAccount, bind, deref. rewrite Hl. reflexivity. Qed.

(** The three ways [updateAccount] can go. *)
Lemma updateAccount_cases (m : Mem) (l : loc) :
  (heap m !! l = None /\ updateAccount l m = (Throw TypeError, m)) \/
  (exists a, heap m !! l = Some a /\
     Forall (fun x => name_is (heap m) (Account.name a) x = false)
            (accounts (store m)) /\
     updateAccount l m = (Ok tt, m)) \/
  (exists a pre old post,
     heap m !! l = Some a /\
     accounts (store m) = pre ++ old :: post /\
     Forall (fun x => name_is (heap m) (Account.name a) x = false) pre /\
     name_is (heap m) (Account.name a) old = true /\
     updateAccount l m
     = (Ok tt, mkMem (heap m) (mkState (pre ++ l :: post) (tags (store m))))).
Proof.
  destruct (heap m !! l) as [a|] eqn:Hl.
  - right.
    destruct (Js.find (name_is (heap m) (Account.name a)) (accounts (store m)))
      as [old| |] eqn:Hf.
    + right. destruct (find_obj_split _ _ _ Hf) as (pre & post & Hacc & Hpre & Hx).
      exists a, pre, old, post. repeat split; try assumption.
      eapply updateAccount_at; eassumption.
    + left. exists a. split; [reflexivity|].
      pose proof (find_undefined_all _ _ Hf) as Hnone.
      split; [exact Hnone | apply (updateAccount_absent _ _ a); assumption].
    + exfalso. exact (find_not_null _ _ Hf).
  - left. split; [reflexivity | apply updateAccount_dangling; exact Hl].
Qed.

(** X1: [hasAccountWithName(name)] is true exactly when some account of
    the store has that name. *)
Theorem hasAccountWithName_iff (name : string) (m : Mem) :
  hasAccountWithName name m = true <->
  exists l a, In l (accounts (store m)) /\ heap m !! l = Some a /\
              Account.name a = name.
Proof.
  rewrite hasAccountWithName_existsb, existsb_exists. split.
  - intros (l & Hin & Hn). apply name_is_true in Hn as (a & Ha & E).
    exists l, a. auto.
  - intros (l & a & Hin & Ha & E). exists l. split; [exact Hin|].
    apply name_is_true. exists a. auto.
Qed.

(** X2: [getCurrentAccount(name)] is never [null]; when it is an object,
    that object is an account of the store whose name is [name], and when
    it is [undefined], [hasAccountWithName(name)] is false. *)
Theorem getCurrentAccount_result (name : string) (m : Mem) :
  match getCurrentAccount name m with
  | Js.obj l =>
      In l (accounts (store m)) /\
      (exists a, heap m !! l = Some a /\ Account.name a = name) /\
      hasAccountWithName name m = true
  | Js.undefined => hasAccountWithName name m = false
  | Js.null => False
  end.
Proof.
  unfold hasAccountWithName.
  destruct (getCurrentAccount name m) as [l| |] eqn:Hc.
  - destruct (find_obj_sound _ _ _ Hc) as [Hn Hin].
    repeat split; [exact Hin | apply name_is_true; exact Hn].
  - reflexivity.
  - exact (find_not_null _ _ Hc).
Qed.

(** X3: adding an account makes its name known and never changes the
    answer of a lookup that already found an account. *)
Theorem addAccount_keeps_lookups (m : Mem) (l : loc) (a : Account.t) :
  heap m !! l = Some a ->
  hasAccountWithName (Account.name a) (snd (addAccount l m)) = true /\
  forall n l0,
    getCurrentAccount n m = Js.obj l0 ->
    getCurrentAccount n (snd (addAccount l m)) = Js.obj l0.
Proof.
  intros Hl. split.
  - rewrite hasAccountWithName_existsb. simpl. unfold Js.push.
    rewrite existsb_app. simpl.
    rewrite (name_is_self _ _ _ Hl). apply orb_true_iff. right. reflexivity.
  - intros n l0 Hc. unfold getCurrentAccount in *. simpl. unfold Js.push.
    destruct (find_obj_split _ _ _ Hc) as (pre & post & -> & Hpre & Hx).
    rewrite <- app_assoc. simpl. apply find_split; assumption.
Qed.

Lemma addAccount_keeps_lookups_witness :
  hasAccountWithName "w" (snd (addAccount 1%nat dup_mem)) = true /\
  forall n l0,
    getCurrentAccount n dup_mem = Js.obj l0 ->
    getCurrentAccount n (snd (addAccount 1%nat dup_mem)) = Js.obj l0.
Proof.
  apply (addAccount_keeps_lookups dup_mem 1%nat dup_new). reflexivity.
Defined.

(** X4: when an account with the name of [A] is in the store,
    [updateAccount(A)] succeeds and [getCurrentAccount(A.name)] then
    returns [A]; no account object is touched. *)
Theorem updateAccount_then_lookup (m : Mem) (l : loc) (a : Account.t) :
  heap m !! l = Some a ->
  hasAccountWithName (Account.name a) m = true ->
  exists m',
    updateAccount l m = (Ok tt, m') /\
    getCurrentAccount (Account.name a) m' = Js.obj l /\
    heap m' = heap m.
Proof.
  intros Hl Hhas. unfold hasAccountWithName in Hhas.
  destruct (getCurrentAccount (Account.name a) m) as [old| |] eqn:Hc;
    try discriminate.
  unfold getCurrentAccount in Hc.
  destruct (find_obj_split _ _ _ Hc) as (pre & post & Hacc & Hpre & Hx).
  eexists. split; [eapply updateAccount_at; eassumption|].
  split; [|reflexivity].
  unfold getCurrentAccount. simpl.
  apply find_split; [exact Hpre | apply name_is_self; exact Hl].
Qed.

Lemma updateAccount_then_lookup_witness :
  exists m',
    updateAccount 3%nat upd_mem = (Ok tt, m') /\
    getCurrentAccount "w" m' = Js.obj 3%nat /\
    heap m' = heap upd_mem.
Proof.
  apply (updateAccount_then_lookup upd_mem 3%nat dup_new); reflexivity.
Defined.

(** X5: [updateAccount] never adds or removes an account: the number of
    accounts, the answer of [hasAccountWithName] for every name, the tags
    and the account objects are what they were. *)
Theorem updateAccount_keeps_names (m : Mem) (l : loc) :
  length (accounts (store (snd (updateAccount l m))))
  = length (accounts (store m)) /\
  (forall n, hasAccountWithName n (snd (updateAccount l m))
             = hasAccountWithName n m) /\
  tags (store (snd (updateAccount l m))) = tags (store m) /\
  heap (snd (updateAccount l m)) = heap m.
Proof.
  destruct (updateAccount_cases m l)
    as [[_ ->] | [(a & _ & _ & ->) | (a & pre & old & post & Hl & Hacc & _ & Hold & ->)]];
    try (repeat split; reflexivity).
  simpl. rewrite Hacc. repeat split.
  - rewrite !length_app. reflexivity.
  - intros n. rewrite !hasAccountWithName_existsb. simpl. rewrite Hacc.
    rewrite !existsb_app. simpl. f_equal. f_equal.
    apply name_is_true in Hold as (b & Hb & E).
    unfold name_is. rewrite Hl, Hb, E. reflexivity.
Qed.

(** X6: [updateAccount] is idempotent: a second call with the same
    account has the outcome of the first and changes nothing more. *)
Theorem updateAccount_idempotent (m : Mem) (l : loc) :
  updateAccount l (snd (updateAccount l m)) = updateAccount l m.
Proof.
  destruct (updateAccount_cases m l)
    as [[Hl E] | [(a & Hl & Hnone & E) | (a & pre & old & post & Hl & Hacc & Hpre & Hold & E)]];
    rewrite E; simpl; try exact E.
  apply (updateAccount_at
           (mkMem (heap m) (mkState (pre ++ l :: post) (tags (store m))))
           l a pre post l); simpl; try assumption.
  - reflexivity.
  - apply name_is_self. exact Hl.
Qed.

(** ** Cached lookups, further *)

Lemma at_out_of_range {T} (l : list T) (i : Z) :
  i < 0 \/ Z.of_nat (length l) <= i -> Js.at_ l i = Js.undefined.
Proof.
  intros H. unfold Js.at_.
  destruct (Z.ltb_spec i 0) as [_|Hi]; [reflexivity|].
  rewrite lookup_ge_None_2 by lia. reflexivity.
Qed.

Lemma at_obj_in_range {T} (l : list T) (i : Z) (x : T) :
  Js.at_ l i = Js.obj x -> 0 <= i < Z.of_nat (length l).
Proof.
  intros H.
  destruct (Z_lt_ge_dec i 0) as [Hn|Hn];
    [rewrite at_out_of_range in H by lia; discriminate|].
  destruct (Z_lt_ge_dec i (Z.of_nat (length l))) as [Hu|Hu]; [lia|].
  rewrite at_out_of_range in H by lia. discriminate.
Qed.

Lemma has_key_true (txid : string) (vout : Z) (u : Utxo.t) :
  Utxo.has_key txid vout u = true <-> utxo_key u = (txid, vout).
Proof.
  unfold Utxo.has_key, utxo_key.
  rewrite andb_true_iff, String.eqb_eq, Z.eqb_eq. split.
  - intros [-> ->]. reflexivity.
  - intros [= -> ->]. auto.
Qed.

Lemma has_key_false (txid : string) (vout : Z) (u : Utxo.t) :
  Utxo.has_key txid vout u = false <-> utxo_key u <> (txid, vout).
Proof.
  rewrite <- has_key_true. destruct (Utxo.has_key txid vout u); split;
    intros H; try reflexivity; try discriminate; try congruence.
Qed.

Lemma fold_left_add_acc (us : list Utxo.t) (acc : Z) :
  fold_left (fun acc utxo => acc + Utxo.value utxo) us acc
  = acc + fold_left (fun acc utxo => acc + Utxo.value utxo) us 0.
Proof.
  revert acc. induction us as [|u r IH]; simpl; intros acc; [lia|].
  rewrite (IH (acc + Utxo.value u)), (IH (0 + Utxo.value u)). lia.
Qed.

Lemma utxosValue_cons (u : Utxo.t) (us : list Utxo.t) :
  utxosValue (u :: us) = Utxo.value u + utxosValue us.
Proof. unfold utxosValue. simpl. apply fold_left_add_acc. Qed.

Lemma utxosValue_app_helper (us vs : list Utxo.t) :
  utxosValue (us ++ vs) = utxosValue us + utxosValue vs.
Proof.
  induction us as [|u r IH]; [reflexivity|].
  simpl app. rewrite !utxosValue_cons, IH. lia.
Qed.

Section FurtherLookups.

Variable blockchain : BlockchainState.
Variable oracle_getTransaction : string -> string -> Outcome TxData.t.

(** The three ways [getUtxo] can go: a rejection that leaves the memory
    alone, a hit in the cache, or a miss served from a cached
    transaction, which pushes the derived UTXO. *)
Lemma getUtxo_cases (accountName txid : string) (vout : Z) (m : Mem) :
  getUtxo blockchain oracle_getTransaction accountName txid vout m
  = (Throw TypeError, m)
  \/
  (exists l a u,
     getCurrentAccount accountName m = Js.obj l /\ heap m !! l = Some a /\
     Js.find (Utxo.has_key txid vout) (Account.utxos a) = Js.obj u /\
     getUtxo blockchain oracle_getTransaction accountName txid vout m
     = (Ok u, m))
  \/
  (exists l a tx out,
     getCurrentAccount accountName m = Js.obj l /\ heap m !! l = Some a /\
     Forall (fun y => Utxo.has_key txid vout y = false) (Account.utxos a) /\
     Js.find (fun tx => String.eqb (Transaction.id tx) txid)
             (Account.transactions a) = Js.obj tx /\
     Js.at_ (Transaction.vout tx) vout = Js.obj out /\
     getUtxo blockchain oracle_getTransaction accountName txid vout m
     = (Ok (Utxo.mk txid vout (TxOutput.value out) (Transaction.timestamp tx)
                    (TxOutput.address out) Utxo.external None),
        mkMem (<[l := Account.with_utxos a
                         (Js.push (Account.utxos a)
                            (Utxo.mk txid vout (TxOutput.value out)
                               (Transaction.timestamp tx)
                               (TxOutput.address out) Utxo.external None))]>
                 (heap m))
              (store m))).
Proof.
  destruct (getCurrentAccount accountName m) as [l| |] eqn:Hc;
    [|left; unfold getUtxo, bind, as_object; rewrite Hc; reflexivity ..].
  destruct (heap m !! l) as [a|] eqn:Hl;
    [|left; unfold getUtxo, bind, as_object, deref; rewrite Hc, Hl;
      reflexivity].
  destruct (Js.find (Utxo.has_key txid vout) (Account.utxos a)) as [u| |] eqn:Hf.
  - right. left. exists l, a, u. repeat split; try assumption.
    apply (getUtxo_hit _ _ _ _ _ _ l a); assumption.
  - assert (Hmiss : forall y,
      Js.find (Utxo.has_key txid vout) (Account.utxos a) <> Js.obj y)
      by (rewrite Hf; discriminate).
    rewrite (getUtxo_after_miss _ _ _ _ _ _ l a Hc Hl Hmiss).
    destruct (Js.find _ (Account.transactions a)) as [tx| |] eqn:Htx;
      [|left; reflexivity ..].
    destruct (Js.at_ (Transaction.vout tx) vout) as [out| |] eqn:Hout;
      [|left; reflexivity ..].
    right. right. exists l, a, tx, out.
    repeat split; try assumption; try reflexivity.
    apply find_undefined_all. exact Hf.
  - exfalso. exact (find_not_null _ _ Hf).
Qed.

(** X7: for a name that no account of the store has, [getTx], [getUtxo]
    and [setUtxoLabel] all reject with a [TypeError] and leave the memory
    as it was. *)
Theorem unknown_account_rejects (accountName txid label : string) (vout : Z)
    (m : Mem) :
  hasAccountWithName accountName m = false ->
  getTx blockchain oracle_getTransaction accountName txid m
  = (Throw TypeError, m) /\
  getUtxo blockchain oracle_getTransaction accountName txid vout m
  = (Throw TypeError, m) /\
  setUtxoLabel blockchain oracle_getTransaction accountName txid vout label m
  = (Throw TypeError, m).
Proof.
  intros H. unfold hasAccountWithName in H.
  unfold getTx, getUtxo, setUtxoLabel, bind, as_object.
  destruct (getCurrentAccount accountName m); [discriminate| |];
    repeat split.
Qed.

(** X8: a cached transaction is served from the cache: when the account
    holds a transaction with the requested id, [getTx] resolves to the
    first such transaction of the account and leaves the memory as it
    was, whatever the indexer would answer. *)
Theorem getTx_cached_hit (accountName txid : string) (m : Mem) (l : loc)
    (a : Account.t) (tx0 : Transaction.t) :
  getCurrentAccount accountName m = Js.obj l ->
  heap m !! l = Some a ->
  In tx0 (Account.transactions a) ->
  Transaction.id tx0 = txid ->
  exists tx pre post,
    getTx blockchain oracle_getTransaction accountName txid m
    = (Ok (Js.obj tx), m) /\
    Transaction.id tx = txid /\
    Account.transactions a = pre ++ tx :: post /\
    Forall (fun t => Transaction.id t <> txid) pre.
Proof.
  intros Hc Hl Hin Hid. rewrite getTx_is_lookup, Hc, Hl.
  destruct (Js.find (fun tx => String.eqb (Transaction.id tx) txid)
                    (Account.transactions a)) as [tx| |] eqn:Hf.
  - destruct (find_obj_split _ _ _ Hf) as (pre & post & Htxs & Hpre & Hx).
    exists tx, pre, post. repeat split; try assumption.
    + apply String.eqb_eq. exact Hx.
    + eapply Forall_impl; [exact Hpre|]. simpl. intros t Ht.
      apply String.eqb_neq. exact Ht.
  - exfalso. pose proof (find_undefined_all _ _ Hf) as Hall.
    rewrite Forall_forall in Hall. apply list_elem_of_In in Hin.
    specialize (Hall tx0 Hin). simpl in Hall.
    rewrite Hid, String.eqb_refl in Hall. discriminate.
  - exfalso. exact (find_not_null _ _ Hf).
Qed.

(** X9: a UTXO that [getUtxo(accountName, txid, vout)] returns has the
    requested [txid] and [vout]. *)
Theorem getUtxo_returns_requested_key (accountName txid : string) (vout : Z)
    (m m1 : Mem) (u : Utxo.t) :
  getUtxo blockchain oracle_getTransaction accountName txid vout m
  = (Ok u, m1) ->
  Utxo.txid u = txid /\ Utxo.vout u = vout.
Proof.
  intros H.
  destruct (getUtxo_cases accountName txid vout m)
    as [E | [(l & a & u0 & _ & _ & Hf & E) | (l & a & tx & out & _ & _ & _ & _ & _ & E)]];
    rewrite E in H; try discriminate; injection H as <- _.
  - destruct (find_obj_sound _ _ _ Hf) as [Hk _].
    apply has_key_true in Hk. injection Hk as -> ->. auto.
  - auto.
Qed.

(** X10: [getUtxo] does not guard the output index: for a UTXO that is
    not cached, when the transaction is cached and [vout] is negative or
    not below the number of its outputs, [getUtxo] rejects with a
    [TypeError] and leaves the memory as it was. *)
Theorem getUtxo_rejects_bad_vout (accountName txid : string) (vout : Z)
    (m : Mem) (l : loc) (a : Account.t) (tx : Transaction.t) :
  getCurrentAccount accountName m = Js.obj l ->
  heap m !! l = Some a ->
  Forall (fun y => Utxo.has_key txid vout y = false) (Account.utxos a) ->
  Js.find (fun tx => String.eqb (Transaction.id tx) txid)
          (Account.transactions a) = Js.obj tx ->
  vout < 0 \/ Z.of_nat (length (Transaction.vout tx)) <= vout ->
  getUtxo blockchain oracle_getTransaction accountName txid vout m
  = (Throw TypeError, m).
Proof.
  intros Hc Hl Hmiss Htx Hrange.
  assert (Hm : forall y,
    Js.find (Utxo.has_key txid vout) (Account.utxos a) <> Js.obj y)
    by (rewrite (find_none _ _ Hmiss); discriminate).
  rewrite (getUtxo_after_miss _ _ _ _ _ _ l a Hc Hl Hm), Htx.
  rewrite (at_out_of_range _ _ Hrange). reflexivity.
Qed.

(** X11: the footprint of [getUtxo].  Whatever its outcome, the store
    (accounts array and tags) is unchanged and no object is added; every
    account object keeps its name, summary and other properties, and its
    UTXO array is either unchanged or extended at the end by exactly the
    UTXO returned. *)
Theorem getUtxo_footprint (accountName txid : string) (vout : Z)
    (m m1 : Mem) (r : Outcome Utxo.t) :
  getUtxo blockchain oracle_getTransaction accountName txid vout m = (r, m1) ->
  store m1 = store m /\
  length (heap m1) = length (heap m) /\
  (forall (l : loc) a,
     heap m !! l = Some a ->
     exists a1,
       heap m1 !! l = Some a1 /\
       Account.name a1 = Account.name a /\
       Account.summary a1 = Account.summary a /\
       Account.props a1 = Account.props a /\
       (Account.utxos a1 = Account.utxos a \/
        exists u, r = Ok u /\ Account.utxos a1 = Account.utxos a ++ [u])).
Proof.
  intros H.
  destruct (getUtxo_cases accountName txid vout m)
    as [E | [(l0 & a0 & u0 & _ & _ & _ & E) | (l0 & a0 & tx & out & _ & Hl0 & _ & _ & _ & E)]];
    rewrite E in H; injection H as <- <-.
  - repeat split. intros l a Hl. exists a. repeat split; auto.
  - repeat split. intros l a Hl. exists a. repeat split; auto.
  - simpl. repeat split.
    + apply length_insert.
    + intros l a Hl. destruct (decide (l = l0)) as [Heq|Hne].
      * subst l. assert (a0 = a) as -> by congruence.
        eexists. split;
          [apply list_lookup_insert_eq; eapply lookup_lt_Some; exact Hl0|].
        repeat split. right. eexists. split; reflexivity.
      * exists a. rewrite list_lookup_insert_ne by congruence.
        repeat split; auto.
Qed.

(** X12: [getUtxo] keeps the keys of every account's UTXOs distinct: if
    no account holds two UTXOs with the same (txid, vout) before the
    call, none does after it. *)
Theorem getUtxo_keeps_keys_distinct (accountName txid : string) (vout : Z)
    (m : Mem) :
  (forall (l : loc) a, heap m !! l = Some a ->
                       NoDup (map utxo_key (Account.utxos a))) ->
  forall (l : loc) a1,
    heap (snd (getUtxo blockchain oracle_getTransaction accountName txid
                       vout m)) !! l = Some a1 ->
    NoDup (map utxo_key (Account.utxos a1)).
Proof.
  intros Hinv l a1.
  destruct (getUtxo_cases accountName txid vout m)
    as [E | [(l0 & a0 & u0 & _ & _ & _ & E) | (l0 & a0 & tx & out & _ & Hl0 & Hmiss & _ & _ & E)]];
    rewrite E; simpl; try apply Hinv.
  destruct (decide (l = l0)) as [Heq|Hne].
  - subst l.
    rewrite list_lookup_insert_eq by (eapply lookup_lt_Some; exact Hl0).
    intros [= <-]. simpl. unfold Js.push. rewrite map_app. simpl.
    apply NoDup_app. split; [apply (Hinv l0 a0 Hl0)|].
    split; [|apply NoDup_singleton].
    intros k Hk Hin. apply list_elem_of_In in Hk, Hin.
    destruct Hin as [<-|[]].
    apply in_map_iff in Hk as (y & Hy & Hiny).
    rewrite Forall_forall in Hmiss. apply list_elem_of_In in Hiny.
    specialize (Hmiss y Hiny). apply has_key_false in Hmiss.
    apply Hmiss. exact Hy.
  - rewrite list_lookup_insert_ne by congruence. apply Hinv.
Qed.

(** X13: what [getUtxo] does to the total [utxosValue] of the account it
    serves: nothing on a hit, and on a miss the total grows by the value
    of the UTXO returned. *)
Theorem getUtxo_total_value (accountName txid : string) (vout : Z)
    (m m1 : Mem) (u : Utxo.t) (l : loc) (a : Account.t) :
  getUtxo blockchain oracle_getTransaction accountName txid vout m
  = (Ok u, m1) ->
  getCurrentAccount accountName m = Js.obj l ->
  heap m !! l = Some a ->
  exists a1,
    heap m1 !! l = Some a1 /\
    utxosValue (Account.utxos a1)
    = utxosValue (Account.utxos a)
      + match Js.find (Utxo.has_key txid vout) (Account.utxos a) with
        | Js.obj _ => 0
        | _ => Utxo.value u
        end.
Proof.
  intros H Hc Hl.
  destruct (getUtxo_cases accountName txid vout m)
    as [E | [(l0 & a0 & u0 & Hc0 & Hl0 & Hf & E) | (l0 & a0 & tx & out & Hc0 & Hl0 & Hmiss & _ & _ & E)]];
    rewrite E in H; try discriminate; injection H as <- <-;
    rewrite Hc in Hc0; injection Hc0 as <-;
    rewrite Hl in Hl0; injection Hl0 as <-.
  - exists a. rewrite Hf. split; [exact Hl | lia].
  - eexists. split;
      [apply list_lookup_insert_eq; eapply lookup_lt_Some; exact Hl|].
    rewrite (find_none _ _ Hmiss). simpl. unfold Js.push.
    rewrite utxosValue_app_helper, utxosValue_cons.
    change (utxosValue []) with 0. simpl. lia.
Qed.

End FurtherLookups.

Lemma unknown_account_rejects_witness :
  getTx mainnet indexer_up "w" "ab" initial = (Throw TypeError, initial) /\
  getUtxo mainnet indexer_up "w" "ab" 0 initial = (Throw TypeError, initial) /\
  setUtxoLabel mainnet indexer_up "w" "ab" 0 "coffee" initial
  = (Throw TypeError, initial).
Proof.
  apply (unknown_account_rejects mainnet indexer_up "w" "ab" "coffee" 0
           initial).
  reflexivity.
Defined.

Lemma getUtxo_returns_requested_key_witness :
  Utxo.txid derived_utxo = "ab"%string /\ Utxo.vout derived_utxo = 0.
Proof.
  apply (getUtxo_returns_requested_key mainnet indexer_up "w" "ab" 0
           cache_mem cache_mem_with_utxo derived_utxo).
  reflexivity.
Defined.

Lemma getTx_cached_hit_witness :
  exists tx pre post,
    getTx mainnet indexer_up "w" "ab" cache_mem = (Ok (Js.obj tx), cache_mem) /\
    Transaction.id tx = "ab"%string /\
    [cached_tx] = pre ++ tx :: post /\
    Forall (fun t => Transaction.id t <> "ab"%string) pre.
Proof.
  apply (getTx_cached_hit mainnet indexer_up "w" "ab" cache_mem 0%nat
           (Account.mk "w" [cached_tx] [] [] []) cached_tx).
  - reflexivity.
  - reflexivity.
  - left. reflexivity.
  - reflexivity.
Defined.

Lemma getUtxo_rejects_bad_vout_witness :
  getUtxo mainnet indexer_up "w" "ab" 2 cache_mem = (Throw TypeError, cache_mem)
  /\
  getUtxo mainnet indexer_up "w" "ab" (-1) cache_mem
  = (Throw TypeError, cache_mem).
Proof.
  split.
  - apply (getUtxo_rejects_bad_vout mainnet indexer_up "w" "ab" 2 cache_mem
             0%nat (Account.mk "w" [cached_tx] [] [] []) cached_tx);
      [reflexivity | reflexivity | constructor | reflexivity |].
    right. simpl. lia.
  - apply (getUtxo_rejects_bad_vout mainnet indexer_up "w" "ab" (-1)
             cache_mem 0%nat (Account.mk "w" [cached_tx] [] [] []) cached_tx);
      [reflexivity | reflexivity | constructor | reflexivity |].
    left. lia.
Defined.

Lemma getUtxo_footprint_witness :
  store cache_mem_with_utxo = store cache_mem /\
  length (heap cache_mem_with_utxo) = length (heap cache_mem) /\
  (forall (l : loc) a,
     heap cache_mem !! l = Some a ->
     exists a1,
       heap cache_mem_with_utxo !! l = Some a1 /\
       Account.name a1 = Account.name a /\
       Account.summary a1 = Account.summary a /\
       Account.props a1 = Account.props a /\
       (Account.utxos a1 = Account.utxos a \/
        exists u, Ok derived_utxo = Ok u /\
                  Account.utxos a1 = Account.utxos a ++ [u])).
Proof.
  apply (getUtxo_footprint mainnet indexer_up "w" "ab" 0 cache_mem
           cache_mem_with_utxo (Ok derived_utxo)).
  reflexivity.
Defined.

Lemma getUtxo_keeps_keys_distinct_witness :
  heap (snd (getUtxo mainnet indexer_up "w" "ab" 1 cache_mem_with_utxo))
    !! 0%nat
  = Some (Account.mk "w" [cached_tx]
            [derived_utxo;
             Utxo.mk "ab" 1 700 1700000000 "bc1qzz" Utxo.external None]
            [] []) /\
  NoDup (map utxo_key
           [derived_utxo;
            Utxo.mk "ab" 1 700 1700000000 "bc1qzz" Utxo.external None]).
Proof.
  split; [reflexivity|].
  apply (getUtxo_keeps_keys_distinct mainnet indexer_up "w" "ab" 1
           cache_mem_with_utxo) with (l := 0%nat)
           (a1 := Account.mk "w" [cached_tx]
                    [derived_utxo;
                     Utxo.mk "ab" 1 700 1700000000 "bc1qzz" Utxo.external
                             None]
                    [] []).
  - intros [|l] a H; simpl in H.
    + injection H as <-. simpl. repeat constructor. intros Hin.
      apply list_elem_of_In in Hin. destruct Hin.
    + destruct l; discriminate H.
  - reflexivity.
Defined.

Lemma getUtxo_total_value_witness :
  exists a1,
    heap cache_mem_with_utxo !! 0%nat = Some a1 /\
    utxosValue (Account.utxos a1) = 0 + 5000.
Proof.
  apply (getUtxo_total_value mainnet indexer_up "w" "ab" 0 cache_mem
           cache_mem_with_utxo derived_utxo 0%nat
           (Account.mk "w" [cached_tx] [] [] []));
    reflexivity.
Defined.

(** ** Labels, further *)

Section FurtherLabels.

Variable blockchain : BlockchainState.
Variable oracle_getTransaction : string -> string -> Outcome TxData.t.

(** Setting the label of a cached UTXO, spelled out: the outcome, the
    account that then answers to the name, and what is left alone. *)
Lemma setUtxoLabel_cached_full (accountName txid : string) (vout : Z)
    (label : string) (m : Mem) (l : loc) (a : Account.t) (u : Utxo.t) :
  m_wf m ->
  getCurrentAccount accountName m = Js.obj l ->
  heap m !! l = Some a ->
  Js.find (Utxo.has_key txid vout) (Account.utxos a) = Js.obj u ->
  exists m' l' a' upre upost,
    setUtxoLabel blockchain oracle_getTransaction accountName txid vout
                 label m = (Ok tt, m') /\
    m_wf m' /\
    getCurrentAccount accountName m' = Js.obj l' /\
    heap m' !! l' = Some a' /\
    Account.utxos a = upre ++ u :: upost /\
    Forall (fun y => Utxo.has_key txid vout y = false) upre /\
    Account.utxos a' = upre ++ Utxo.with_label u label :: upost /\
    Account.name a' = Account.name a /\
    Account.transactions a' = Account.transactions a /\
    Account.summary a' = Account.summary a /\
    Account.props a' = Account.props a /\
    tags (store m') = tags (store m) /\
    length (accounts (store m')) = length (accounts (store m)) /\
    (forall n', n' <> accountName ->
                getCurrentAccount n' m' = getCurrentAccount n' m) /\
    (forall (x : loc) b, heap m !! x = Some b -> heap m' !! x = Some b).
Proof.
  intros Hwf Hc Hl Hu.
  destruct (find_obj_split _ _ _ Hu) as (upre & upost & Hus & Hupre & Hux).
  pose proof Hc as Hc'. unfold getCurrentAccount in Hc'.
  destruct (find_obj_split _ _ _ Hc') as (pre & post & Hacc & Hpre & Hx).
  assert (Hname : Account.name a = accountName).
  { apply name_is_true in Hx as (b & Hb & E). congruence. }
  assert (Hrun :
    setUtxoLabel blockchain oracle_getTransaction accountName txid vout label m
    = if bool_decide (Utxo.label u = Some label) then (Ok tt, m)
      else (Ok tt,
            mkMem (heap m ++
                     [Account.with_utxos a
                        (upre ++ Utxo.with_label u label :: upost)])
                  (mkState (pre ++ length (heap m) :: post)
                           (tags (store m))))).
  { unfold setUtxoLabel, as_object, deref. unfold bind at 1 2 3.
    rewrite Hc, Hl, Hus, (findIndex_split _ upre upost u Hupre Hux).
    destruct (Z.eqb_spec (Z.of_nat (length upre)) (-1)) as [E|_]; [lia|].
    unfold ret, label_recipe.
    rewrite Hacc, (findIndex_split _ pre post l Hpre Hx), at_split, Hl, Hus,
      at_split.
    destruct (bool_decide (Utxo.label u = Some label)); [reflexivity|].
    rewrite !set_at_split. reflexivity. }
  rewrite Hrun.
  destruct (bool_decide (Utxo.label u = Some label)) eqn:Hlab.
  - apply bool_decide_eq_true in Hlab.
    exists m, l, a, upre, upost.
    rewrite (with_label_same _ _ Hlab). repeat split; auto.
  - assert (Hlive : forall x, In x pre \/ In x post ->
                              (x < length (heap m))%nat).
    { intros x Hin. unfold m_wf in Hwf. rewrite Hacc, Forall_forall in Hwf.
      apply Hwf. apply list_elem_of_In, in_or_app.
      destruct Hin as [H|H]; [left | right; right]; exact H. }
    set (a' := Account.with_utxos a
                 (upre ++ Utxo.with_label u label :: upost)).
    exists (mkMem (heap m ++ [a'])
                  (mkState (pre ++ length (heap m) :: post) (tags (store m)))),
           (length (heap m)), a', upre, upost.
    split; [reflexivity|]. simpl.
    assert (Hnew : (heap m ++ [a']) !! length (heap m) = Some a')
      by (apply list_lookup_middle; reflexivity).
    repeat split.
    + unfold m_wf. simpl. rewrite length_app. simpl.
      apply Forall_forall. intros x Hin. apply list_elem_of_In in Hin.
      apply in_app_or in Hin as [Hin|[<-|Hin]];
        [specialize (Hlive x (or_introl Hin)) | | specialize (Hlive x (or_intror Hin))];
        lia.
    + unfold getCurrentAccount. simpl. apply find_split.
      * apply Forall_forall. intros x Hin. apply list_elem_of_In in Hin.
        rewrite name_is_alloc by (apply Hlive; left; exact Hin).
        rewrite Forall_forall in Hpre. apply Hpre, list_elem_of_In, Hin.
      * unfold name_is. rewrite list_lookup_middle by reflexivity.
        simpl. rewrite Hname. apply String.eqb_refl.
    + exact Hnew.
    + exact Hus.
    + exact Hupre.
    + rewrite Hacc, !length_app. reflexivity.
    + intros n' Hn'. unfold getCurrentAccount. simpl. rewrite Hacc.
      assert (Hdang : name_is (heap m) n' (length (heap m)) = false).
      { unfold name_is. rewrite lookup_ge_None_2 by lia. reflexivity. }
      assert (Hold : name_is (heap m) n' l = false).
      { unfold name_is. rewrite Hl. apply String.eqb_neq. congruence. }
      rewrite <- (find_replace_miss _ pre post l (length (heap m)) Hold Hdang).
      apply find_ext, Forall_forall. intros x Hin.
      apply list_elem_of_In in Hin.
      apply in_app_or in Hin as [Hin|[<-|Hin]].
      * apply name_is_alloc, Hlive. left. exact Hin.
      * rewrite Hdang. unfold name_is.
        rewrite list_lookup_middle by reflexivity. simpl.
        apply String.eqb_neq. congruence.
      * apply name_is_alloc, Hlive. right. exact Hin.
    + intros x b Hb. apply lookup_app_l_Some. exact Hb.
Qed.

(** X15: setting the label of one cached UTXO leaves every other cached
    UTXO of the account as it was: [getUtxo] for a different key returns
    the same UTXO as before. *)
Theorem setUtxoLabel_keeps_other_utxos (accountName txid txid' : string)
    (vout vout' : Z) (label : string) (m : Mem) (l : loc) (a : Account.t)
    (u u' : Utxo.t) :
  m_wf m ->
  getCurrentAccount accountName m = Js.obj l ->
  heap m !! l = Some a ->
  Js.find (Utxo.has_key txid vout) (Account.utxos a) = Js.obj u ->
  Js.find (Utxo.has_key txid' vout') (Account.utxos a) = Js.obj u' ->
  (txid', vout') <> (txid, vout) ->
  exists m',
    setUtxoLabel blockchain oracle_getTransaction accountName txid vout
                 label m = (Ok tt, m') /\
    getUtxo blockchain oracle_getTransaction accountName txid' vout' m'
    = (Ok u', m').
Proof.
  intros Hwf Hc Hl Hu Hu' Hne.
  destruct (setUtxoLabel_cached_full accountName txid vout label m l a u
              Hwf Hc Hl Hu)
    as (m' & l' & a' & upre & upost & Hrun & _ & Hc1 & Hl1 & Hus & _ & Hus'
        & _).
  exists m'. split; [exact Hrun|].
  apply (getUtxo_hit _ _ _ _ _ _ l' a' u' Hc1 Hl1).
  assert (Hk : Utxo.has_key txid' vout' u = false).
  { apply has_key_false. destruct (find_obj_sound _ _ _ Hu) as [Hku _].
    apply has_key_true in Hku. rewrite Hku. congruence. }
  rewrite Hus'. rewrite Hus in Hu'.
  rewrite (find_replace_miss _ upre upost u (Utxo.with_label u label));
    [exact Hu' | exact Hk | rewrite has_key_with_label; exact Hk].
Qed.

(** X16: setting the label of a cached UTXO is local to its account and
    copies on write: the label-carrying account keeps its name,
    transactions, summary and other properties, lookups under every other
    name answer as before, the tags and the number of accounts are
    unchanged, and no object that existed is modified. *)
Theorem setUtxoLabel_is_local (accountName txid : string) (vout : Z)
    (label : string) (m : Mem) (l : loc) (a : Account.t) (u : Utxo.t) :
  m_wf m ->
  getCurrentAccount accountName m = Js.obj l ->
  heap m !! l = Some a ->
  Js.find (Utxo.has_key txid vout) (Account.utxos a) = Js.obj u ->
  exists m' l' a',
    setUtxoLabel blockchain oracle_getTransaction accountName txid vout
                 label m = (Ok tt, m') /\
    getCurrentAccount accountName m' = Js.obj l' /\
    heap m' !! l' = Some a' /\
    Account.name a' = Account.name a /\
    Account.transactions a' = Account.transactions a /\
    Account.summary a' = Account.summary a /\
    Account.props a' = Account.props a /\
    length (Account.utxos a') = length (Account.utxos a) /\
    tags (store m') = tags (store m) /\
    length (accounts (store m')) = length (accounts (store m)) /\
    (forall n', n' <> accountName ->
                getCurrentAccount n' m' = getCurrentAccount n' m) /\
    (forall (x : loc) b, heap m !! x = Some b -> heap m' !! x = Some b).
Proof.
  intros Hwf Hc Hl Hu.
  destruct (setUtxoLabel_cached_full accountName txid vout label m l a u
              Hwf Hc Hl Hu)
    as (m' & l' & a' & upre & upost & Hrun & _ & Hc1 & Hl1 & Hus & _ & Hus'
        & Hn & Ht & Hs & Hp & Htags & Hlen & Hother & Hheap).
  exists m', l', a'. repeat split; try assumption.
  rewrite Hus, Hus', !length_app. reflexivity.
Qed.

(** X17: the last label wins: after [setUtxoLabel] with one label and
    then with another on the same cached UTXO, [getUtxo] returns the UTXO
    with the second label. *)
Theorem setUtxoLabel_last_label_wins (accountName txid : string) (vout : Z)
    (label1 label2 : string) (m : Mem) (l : loc) (a : Account.t)
    (u : Utxo.t) :
  m_wf m ->
  getCurrentAccount accountName m = Js.obj l ->
  heap m !! l = Some a ->
  Js.find (Utxo.has_key txid vout) (Account.utxos a) = Js.obj u ->
  exists m1 m2,
    setUtxoLabel blockchain oracle_getTransaction accountName txid vout
                 label1 m = (Ok tt, m1) /\
    setUtxoLabel blockchain oracle_getTransaction accountName txid vout
                 label2 m1 = (Ok tt, m2) /\
    getUtxo blockchain oracle_getTransaction accountName txid vout m2
    = (Ok (Utxo.with_label u label2), m2).
Proof.
  intros Hwf Hc Hl Hu.
  destruct (find_obj_sound _ _ _ Hu) as [Hku _].
  destruct (setUtxoLabel_cached_full accountName txid vout label1 m l a u
              Hwf Hc Hl Hu)
    as (m1 & l1 & a1 & upre & upost & Hrun1 & Hwf1 & Hc1 & Hl1 & _ & Hupre
        & Hus1 & _).
  assert (Hu1 : Js.find (Utxo.has_key txid vout) (Account.utxos a1)
                = Js.obj (Utxo.with_label u label1)).
  { rewrite Hus1. apply find_split; [exact Hupre|].
    rewrite has_key_with_label. exact Hku. }
  destruct (setUtxoLabel_cached_full accountName txid vout label2 m1 l1 a1 _
              Hwf1 Hc1 Hl1 Hu1)
    as (m2 & l2 & a2 & upre2 & upost2 & Hrun2 & _ & Hc2 & Hl2 & _ & Hupre2
        & Hus2 & _).
  exists m1, m2. repeat split; try assumption.
  apply (getUtxo_hit _ _ _ _ _ _ l2 a2 _ Hc2 Hl2).
  rewrite Hus2. apply find_split; [exact Hupre2|].
  rewrite !has_key_with_label. exact Hku.
Qed.

End FurtherLabels.

Lemma setUtxoLabel_cached_then_getUtxo_witness :
  exists m',
    setUtxoLabel mainnet indexer_up "w" "ab" 0 "coffee" two_utxo_mem
    = (Ok tt, m') /\
    getUtxo mainnet indexer_up "w" "ab" 0 m'
    = (Ok (Utxo.with_label derived_utxo "coffee"), m').
Proof.
  apply (setUtxoLabel_cached_then_getUtxo mainnet indexer_up "w" "ab" 0
           "coffee" two_utxo_mem 0%nat
           (Account.mk "w" [cached_tx] [derived_utxo; second_utxo] [] [])
           derived_utxo).
  - repeat constructor.
  - reflexivity.
  - reflexivity.
  - reflexivity.
Defined.

Lemma setUtxoLabel_keeps_other_utxos_witness :
  exists m',
    setUtxoLabel mainnet indexer_up "w" "ab" 0 "coffee" two_utxo_mem
    = (Ok tt, m') /\
    getUtxo mainnet indexer_up "w" "ab" 1 m' = (Ok second_utxo, m').
Proof.
  apply (setUtxoLabel_keeps_other_utxos mainnet indexer_up "w" "ab" "ab" 0 1
           "coffee" two_utxo_mem 0%nat
           (Account.mk "w" [cached_tx] [derived_utxo; second_utxo] [] [])
           derived_utxo second_utxo).
  - repeat constructor.
  - reflexivity.
  - reflexivity.
  - reflexivity.
  - reflexivity.
  - discriminate.
Defined.

Lemma setUtxoLabel_is_local_witness :
  exists m' l' a',
    setUtxoLabel mainnet indexer_up "w" "ab" 0 "coffee" two_utxo_mem
    = (Ok tt, m') /\
    getCurrentAccount "w" m' = Js.obj l' /\
    heap m' !! l' = Some a' /\
    Account.name a' = "w"%string /\
    Account.transactions a' = [cached_tx] /\
    Account.summary a' = [] /\
    Account.props a' = [] /\
    length (Account.utxos a') = 2%nat /\
    tags (store m') = ["kyc"%string] /\
    length (accounts (store m')) = 2%nat /\
    (forall n', n' <> "w"%string ->
                getCurrentAccount n' m' = getCurrentAccount n' two_utxo_mem) /\
    (forall (x : loc) b, heap two_utxo_mem !! x = Some b ->
                         heap m' !! x = Some b).
Proof.
  apply (setUtxoLabel_is_local mainnet indexer_up "w" "ab" 0 "coffee"
           two_utxo_mem 0%nat
           (Account.mk "w" [cached_tx] [derived_utxo; second_utxo] [] [])
           derived_utxo).
  - repeat constructor.
  - reflexivity.
  - reflexivity.
  - reflexivity.
Defined.

Lemma setUtxoLabel_last_label_wins_witness :
  exists m1 m2,
    setUtxoLabel mainnet indexer_up "w" "ab" 1 "coffee" two_utxo_mem
    = (Ok tt, m1) /\
    setUtxoLabel mainnet indexer_up "w" "ab" 1 "tea" m1 = (Ok tt, m2) /\
    getUtxo mainnet indexer_up "w" "ab" 1 m2
    = (Ok (Utxo.with_label second_utxo "tea"), m2).
Proof.
  apply (setUtxoLabel_last_label_wins mainnet indexer_up "w" "ab" 1
           "coffee" "tea" two_utxo_mem 0%nat
           (Account.mk "w" [cached_tx] [derived_utxo; second_utxo] [] [])
           second_utxo).
  - repeat constructor.
  - reflexivity.
  - reflexivity.
  - reflexivity.
Defined.

(** ** Tags are changed by [setTags] only *)

Lemma keeps_tags_ret {T} (v : T) : keeps_tags (ret v).
Proof. intros m. reflexivity. Qed.

Lemma keeps_tags_throw {T} (e : Exn) : keeps_tags (@throw T e).
Proof. intros m. reflexivity. Qed.

Lemma keeps_tags_await {T} (p : Outcome T) : keeps_tags (await p).
Proof. intros m. reflexivity. Qed.

Lemma keeps_tags_bind {A B} (c : M A) (k : A -> M B) :
  keeps_tags c -> (forall x, keeps_tags (k x)) -> keeps_tags (bind c k).
Proof.
  intros Hc Hk m. unfold bind. specialize (Hc m).
  destruct (c m) as [[v|e] m']; simpl in *; [|exact Hc].
  rewrite (Hk v m'). exact Hc.
Qed.

Lemma keeps_tags_unawaited {T} (c : M T) :
  keeps_tags c -> keeps_tags (unawaited c).
Proof. intros Hc m. exact (Hc m). Qed.

Lemma keeps_tags_as_object (r : Mem -> Js.ref loc) : keeps_tags (as_object r).
Proof. intros m. unfold as_object. destruct (r m); reflexivity. Qed.

Lemma keeps_tags_deref (l : loc) : keeps_tags (deref l).
Proof. intros m. unfold deref. destruct (heap m !! l); reflexivity. Qed.

Lemma keeps_tags_mutate (l : loc) (f : Account.t -> Account.t) :
  keeps_tags (mutate l f).
Proof. intros m. unfold mutate. destruct (heap m !! l); reflexivity. Qed.

Lemma keeps_tags_alloc (a : Account.t) : keeps_tags (alloc a).
Proof. intros m. reflexivity. Qed.

Lemma keeps_tags_addAccount (l : loc) : keeps_tags (addAccount l).
Proof. intros m. reflexivity. Qed.

Lemma keeps_tags_updateAccount (l : loc) : keeps_tags (updateAccount l).
Proof.
  apply keeps_tags_bind; [apply keeps_tags_deref|].
  intros a m. cbv beta zeta.
  destruct (negb (Js.findIndex _ _ =? -1)); reflexivity.
Qed.

Lemma keeps_tags_label_recipe (accountName label : string) (utxoIndex : Z) :
  keeps_tags (label_recipe accountName utxoIndex label).
Proof.
  intros m. unfold label_recipe.
  destruct (Js.at_ (accounts (store m)) _) as [l| |]; try reflexivity.
  destruct (heap m !! l) as [a|]; [|reflexivity].
  destruct (Js.at_ (Account.utxos a) utxoIndex) as [u| |]; try reflexivity.
  destruct (bool_decide _); reflexivity.
Qed.

Create HintDb tags_db.

#[local] Hint Resolve keeps_tags_ret keeps_tags_throw keeps_tags_await
  keeps_tags_unawaited keeps_tags_as_object keeps_tags_deref
  keeps_tags_mutate keeps_tags_alloc keeps_tags_addAccount
  keeps_tags_updateAccount keeps_tags_label_recipe : tags_db.

Ltac tags_step :=
  first
    [ apply keeps_tags_bind; [solve [auto with tags_db] | intros ?]
    | solve [auto with tags_db] ].

Section TagsFrame.

Variable blockchain : BlockchainState.
Variable oracle_getTransaction : string -> string -> Outcome TxData.t.
Variables Wallet Config : Type.
Variable getBlockchainConfig : string -> string -> Z * Z * Z -> Config.
Variable bdk_syncWallet : Wallet -> string -> Config -> Outcome unit.
Variable getWalletData : Wallet -> string -> Outcome WalletData.t.

Lemma keeps_tags_getTx (accountName txid : string) :
  keeps_tags (getTx blockchain oracle_getTransaction accountName txid).
Proof.
  unfold getTx. do 2 tags_step.
  destruct (Js.neq_null _); [tags_step|].
  repeat tags_step.
Qed.

Lemma keeps_tags_getUtxo (accountName txid : string) (vout : Z) :
  keeps_tags (getUtxo blockchain oracle_getTransaction accountName txid vout).
Proof.
  pose proof (keeps_tags_getTx accountName txid) as Htx.
  unfold getUtxo. do 2 tags_step.
  destruct (Js.find _ _); [tags_step| |];
    (apply keeps_tags_bind; [exact Htx|]; intros [tx| |]; try tags_step;
     destruct (Js.at_ _ _); repeat tags_step).
Qed.

Lemma keeps_tags_setUtxoLabel (accountName txid : string) (vout : Z)
    (label : string) :
  keeps_tags (setUtxoLabel blockchain oracle_getTransaction accountName txid
                vout label).
Proof.
  pose proof (keeps_tags_getUtxo accountName txid vout) as Hu.
  unfold setUtxoLabel. do 2 tags_step.
  apply keeps_tags_bind; [|intros ?; tags_step].
  destruct (_ =? _); [|tags_step].
  apply keeps_tags_bind; [exact Hu|]. intros _. repeat tags_step.
Qed.

Lemma keeps_tags_syncWallet (wallet : Wallet) (account : loc) :
  keeps_tags (syncWallet blockchain Wallet Config getBlockchainConfig
                bdk_syncWallet getWalletData wallet account).
Proof. unfold syncWallet. repeat tags_step. Qed.

(** X18: the tags of the store are what [setTags] last stored: [getTags]
    after [setTags(ts)] is [ts], and no account operation ([addAccount],
    [updateAccount], [getTx], [getUtxo], [setUtxoLabel], [syncWallet]),
    whatever its arguments and outcome, changes them. *)
Theorem tags_changed_by_setTags_only (ts : list string) (m : Mem) :
  getTags (setTags ts m) = ts /\
  (forall l, getTags (snd (addAccount l (setTags ts m))) = ts) /\
  (forall l, getTags (snd (updateAccount l (setTags ts m))) = ts) /\
  (forall n t,
     getTags (snd (getTx blockchain oracle_getTransaction n t (setTags ts m)))
     = ts) /\
  (forall n t v,
     getTags (snd (getUtxo blockchain oracle_getTransaction n t v
                           (setTags ts m))) = ts) /\
  (forall n t v lbl,
     getTags (snd (setUtxoLabel blockchain oracle_getTransaction n t v lbl
                                (setTags ts m))) = ts) /\
  (forall w l,
     getTags (snd (syncWallet blockchain Wallet Config getBlockchainConfig
                              bdk_syncWallet getWalletData w l
                              (setTags ts m))) = ts).
Proof.
  unfold getTags.
  split; [reflexivity|].
  split; [intros l; exact (keeps_tags_addAccount l (setTags ts m))|].
  split; [intros l; exact (keeps_tags_updateAccount l (setTags ts m))|].
  split; [intros n t; exact (keeps_tags_getTx n t (setTags ts m))|].
  split; [intros n t v; exact (keeps_tags_getUtxo n t v (setTags ts m))|].
  split;
    [intros n t v lbl; exact (keeps_tags_setUtxoLabel n t v lbl (setTags ts m))|].
  intros w l. exact (keeps_tags_syncWallet w l (setTags ts m)).
Qed.

(** X19: a failure of the wallet library reaches the caller of
    [syncWallet] as it is: when the synchronisation rejects, or resolves
    and the retrieval of the wallet data rejects, [syncWallet] rejects
    with the same error, allocates nothing and leaves the memory as it
    was. *)
Theorem syncWallet_propagates_rejection (wallet : Wallet) (account : loc)
    (e : Exn) (m : Mem) :
  bdk_syncWallet wallet (backend blockchain)
    (getBlockchainConfig (backend blockchain) (url blockchain)
       (retries blockchain, stopGap blockchain, timeout blockchain))
  = Throw e
  \/
  ((exists v,
      bdk_syncWallet wallet (backend blockchain)
        (getBlockchainConfig (backend blockchain) (url blockchain)
           (retries blockchain, stopGap blockchain, timeout blockchain))
      = Ok v) /\
   getWalletData wallet (network blockchain) = Throw e) ->
  syncWallet blockchain Wallet Config getBlockchainConfig bdk_syncWallet
             getWalletData wallet account m
  = (Throw e, m).
Proof.
  unfold syncWallet, bind, await.
  intros [-> | [[v ->] ->]]; reflexivity.
Qed.

(** X20: synchronising an account of the store and writing the result
    back with [updateAccount] makes the store answer
    [getCurrentAccount(A.name)] with the synchronised account: the name
    and other properties of [A] with the transactions, UTXOs and summary
    of the wallet library; the number of accounts is unchanged. *)
Theorem syncWallet_then_updateAccount (wallet : Wallet) (account : loc)
    (a : Account.t) (d : WalletData.t) (m : Mem) :
  m_wf m ->
  bdk_syncWallet wallet (backend blockchain)
    (getBlockchainConfig (backend blockchain) (url blockchain)
       (retries blockchain, stopGap blockchain, timeout blockchain))
  = Ok tt ->
  getWalletData wallet (network blockchain) = Ok d ->
  heap m !! account = Some a ->
  hasAccountWithName (Account.name a) m = true ->
  exists l' m1 m2,
    syncWallet blockchain Wallet Config getBlockchainConfig bdk_syncWallet
               getWalletData wallet account m
    = (Ok l', m1) /\
    updateAccount l' m1 = (Ok tt, m2) /\
    getCurrentAccount (Account.name a) m2 = Js.obj l' /\
    heap m2 !! l'
    = Some (Account.mk (Account.name a) (WalletData.transactions d)
              (WalletData.utxos d) (WalletData.summary d) (Account.props a)) /\
    length (accounts (store m2)) = length (accounts (store m)).
Proof.
  intros Hwf Hsync Hdata Hl Hhas.
  set (a' := Account.mk (Account.name a) (WalletData.transactions d)
               (WalletData.utxos d) (WalletData.summary d) (Account.props a)).
  set (m1 := mkMem (heap m ++ [a']) (store m)).
  assert (Hrun :
    syncWallet blockchain Wallet Config getBlockchainConfig bdk_syncWallet
               getWalletData wallet account m
    = (Ok (length (heap m)), m1)).
  { unfold syncWallet, bind, await, deref, alloc.
    rewrite Hsync, Hdata, Hl. reflexivity. }
  unfold hasAccountWithName in Hhas.
  destruct (getCurrentAccount (Account.name a) m) as [old| |] eqn:Hc;
    try discriminate.
  unfold getCurrentAccount in Hc.
  destruct (find_obj_split _ _ _ Hc) as (pre & post & Hacc & Hpre & Hx).
  assert (Hnew : heap m1 !! length (heap m) = Some a')
    by (apply list_lookup_middle; reflexivity).
  assert (Hlive : forall x, In x (accounts (store m)) ->
                            (x < length (heap m))%nat).
  { intros x Hin. unfold m_wf in Hwf. rewrite Forall_forall in Hwf.
    apply Hwf, list_elem_of_In, Hin. }
  assert (Hpre1 : Forall (fun x => name_is (heap m1) (Account.name a') x = false)
                         pre).
  { apply Forall_forall. intros x Hin. simpl.
    rewrite name_is_alloc.
    - rewrite Forall_forall in Hpre. apply Hpre. exact Hin.
    - apply Hlive. rewrite Hacc. apply in_or_app. left.
      apply list_elem_of_In. exact Hin. }
  assert (Hold1 : name_is (heap m1) (Account.name a') old = true).
  { simpl. rewrite name_is_alloc; [exact Hx|].
    apply Hlive. rewrite Hacc. apply in_or_app. right. left. reflexivity. }
  exists (length (heap m)), m1,
    (mkMem (heap m1)
           (mkState (pre ++ length (heap m) :: post) (tags (store m1)))).
  split; [exact Hrun|].
  split; [apply (updateAccount_at m1 _ a' pre post old Hnew Hacc Hpre1 Hold1)|].
  split; [|split].
  - unfold getCurrentAccount. simpl heap. simpl accounts.
    apply find_split; [exact Hpre1|].
    apply (name_is_self _ _ a'). exact Hnew.
  - exact Hnew.
  - simpl. rewrite Hacc, !length_app. reflexivity.
Qed.

End TagsFrame.

Lemma syncWallet_propagates_rejection_witness :
  syncWallet mainnet nat string (fun backend url _ => (backend ++ url)%string)
             (fun _ _ _ => Throw (Rejected "electrum unreachable"))
             (fun _ _ => Ok synced_data) 7%nat 0%nat dup_mem
  = (Throw (Rejected "electrum unreachable"), dup_mem)
  /\
  syncWallet mainnet nat string (fun backend url _ => (backend ++ url)%string)
             (fun _ _ _ => Ok tt)
             (fun _ _ => Throw (Rejected "wallet closed")) 7%nat 0%nat dup_mem
  = (Throw (Rejected "wallet closed"), dup_mem).
Proof.
  split.
  - apply (syncWallet_propagates_rejection mainnet nat string
             (fun backend url _ => (backend ++ url)%string)
             (fun _ _ _ => Throw (Rejected "electrum unreachable"))
             (fun _ _ => Ok synced_data) 7%nat 0%nat
             (Rejected "electrum unreachable") dup_mem).
    left. reflexivity.
  - apply (syncWallet_propagates_rejection mainnet nat string
             (fun backend url _ => (backend ++ url)%string)
             (fun _ _ _ => Ok tt)
             (fun _ _ => Throw (Rejected "wallet closed")) 7%nat 0%nat
             (Rejected "wallet closed") dup_mem).
    right. split; [exists tt; reflexivity | reflexivity].
Defined.

Lemma syncWallet_then_updateAccount_witness :
  exists l' m1 m2,
    syncWallet mainnet nat string (fun backend url _ => (backend ++ url)%string)
               (fun _ _ _ => Ok tt) (fun _ _ => Ok synced_data)
               7%nat 0%nat dup_mem
    = (Ok l', m1) /\
    updateAccount l' m1 = (Ok tt, m2) /\
    getCurrentAccount "w" m2 = Js.obj l' /\
    heap m2 !! l'
    = Some (Account.mk "w" [cached_tx] [derived_utxo]
              [("balanceSats"%string, 5000)] (Account.props dup_old)) /\
    length (accounts (store m2)) = 1%nat.
Proof.
  apply (syncWallet_then_updateAccount mainnet nat string
           (fun backend url _ => (backend ++ url)%string)
           (fun _ _ _ => Ok tt) (fun _ _ => Ok synced_data)
           7%nat 0%nat dup_old synced_data dup_mem).
  - repeat constructor.
  - reflexivity.
  - reflexivity.
  - reflexivity.
  - reflexivity.
Defined.

(** ** Label import, further *)

Section FurtherImport.

Variable Labels : Type.
Variable JSON_parse : string -> Outcome Labels.
Variable CSVtoLabels : string -> Outcome Labels.
Variable importLabelsToAccount : string -> Labels -> Outcome unit.
Variable pickFile : string -> Outcome string.

(** X21: [importLabelsFromClipboard] leaves the screen exactly when it
    completes without an error, and an import it performed is the import,
    into the account of the screen, of what the selected parser
    returned. *)
Theorem importLabelsFromClipboard_back_iff_ok
    (accountId importType importContent : string) :
  (In RouterBack
      (snd (importLabelsFromClipboard Labels JSON_parse CSVtoLabels
              importLabelsToAccount accountId importType importContent))
   <->
   fst (importLabelsFromClipboard Labels JSON_parse CSVtoLabels
          importLabelsToAccount accountId importType importContent)
   = Ok tt)
  /\
  (forall id labels,
     In (ImportLabels id labels)
        (snd (importLabelsFromClipboard Labels JSON_parse CSVtoLabels
                importLabelsToAccount accountId importType importContent)) ->
     id = accountId /\
     (if String.eqb importType "JSON"
      then JSON_parse importContent
      else CSVtoLabels importContent) = Ok labels).
Proof.
  unfold importLabelsFromClipboard.
  destruct (if String.eqb importType "JSON"
            then JSON_parse importContent
            else CSVtoLabels importContent) as [labels|e]; simpl.
  - destruct (importLabelsToAccount accountId labels) as [[]|e]; simpl.
    + split.
      * split; [reflexivity | intros _; right; right; left; reflexivity].
      * intros id lbl [H|[H|[H|[]]]]; try discriminate.
        injection H as <- <-. auto.
    + split.
      * split; [intros [H|[]]; discriminate | discriminate].
      * intros id lbl [H|[]]. discriminate.
  - split.
    + split; [intros [] | discriminate].
    + intros id lbl [].
Qed.

(** X22: the import from a file does what the import from the clipboard
    does on the picked file's text, minus the logging: same outcome, same
    import and navigation.  The file is asked for as JSON exactly when
    JSON import is selected, and when no file is picked the rejection
    comes back and nothing is parsed or imported. *)
Theorem importLabels_matches_clipboard (accountId importType : string) :
  (forall fileContent,
     pickFile (if String.eqb importType "JSON"
               then "application/json" else "text/csv")%string
     = Ok fileContent ->
     fst (importLabels Labels JSON_parse CSVtoLabels importLabelsToAccount
            pickFile accountId importType)
     = fst (importLabelsFromClipboard Labels JSON_parse CSVtoLabels
              importLabelsToAccount accountId importType fileContent)
     /\
     snd (importLabels Labels JSON_parse CSVtoLabels importLabelsToAccount
            pickFile accountId importType)
     = List.filter (fun ev => negb (is_log ev))
         (snd (importLabelsFromClipboard Labels JSON_parse CSVtoLabels
                 importLabelsToAccount accountId importType fileContent)))
  /\
  (forall e,
     pickFile (if String.eqb importType "JSON"
               then "application/json" else "text/csv")%string
     = Throw e ->
     importLabels Labels JSON_parse CSVtoLabels importLabelsToAccount
       pickFile accountId importType
     = (Throw e, [])).
Proof.
  unfold importLabels, importLabelsFromClipboard. split.
  - intros fileContent ->.
    destruct (if String.eqb importType "JSON"
              then JSON_parse fileContent
              else CSVtoLabels fileContent) as [labels|e];
      [|split; reflexivity].
    destruct (importLabelsToAccount accountId labels) as [[]|e];
      split; reflexivity.
  - intros e ->. reflexivity.
Qed.

End FurtherImport.

(** ** The inactivity lock *)

Lemma Qle_bool_seconds (d x : Z) :
  Qle_bool (inject_Z d) (inject_Z x / inject_Z 1000)%Q = (1000 * d <=? x).
Proof.
  destruct (Z.leb_spec (1000 * d) x) as [H|H].
  - apply Qle_bool_iff. unfold Qle. cbn. lia.
  - apply not_true_iff_false. rewrite Qle_bool_iff. unfold Qle. cbn. lia.
Qed.

Section LockProperties.

Variable lockDeltaTime : Z.

(** X23: with authentication required, an app that goes to the
    background at clock value [t0] and becomes active again at [t1]
    (milliseconds) triggers the lock exactly when at least
    [lockDeltaTime] seconds have passed, whatever the state before. *)
Theorem lock_after_inactivity (t0 t1 : Z) (s : Lock.t) :
  snd (Lock.run true lockDeltaTime
         [(t0, Lock.background); (t1, Lock.active)] s)
  = if 1000 * lockDeltaTime <=? t1 - t0
    then [Lock.setLockTriggered true]
    else [].
Proof.
  unfold Lock.run, Lock.handleAppStateChanged, Lock.elapsed. simpl.
  rewrite Qle_bool_seconds.
  destruct (1000 * lockDeltaTime <=? t1 - t0); reflexivity.
Qed.

(** X24: without required authentication the handler does nothing but
    track the app state: over any sequence of state changes it calls
    nothing on the auth store and never writes the timestamp. *)
Theorem no_auth_no_lock (events : list (Z * Lock.AppStateStatus))
    (s : Lock.t) :
  snd (Lock.run false lockDeltaTime events s) = [] /\
  Lock.lastBackgroundTimestamp (fst (Lock.run false lockDeltaTime events s))
  = Lock.lastBackgroundTimestamp s.
Proof.
  revert s. induction events as [|[now next] rest IH]; intros s;
    [split; reflexivity|].
  simpl.
  assert (Hstep : Lock.handleAppStateChanged false lockDeltaTime now next s
                  = (Lock.mk next (Lock.lastBackgroundTimestamp s), [])).
  { unfold Lock.handleAppStateChanged. rewrite !andb_false_r. reflexivity. }
  rewrite Hstep.
  specialize (IH (Lock.mk next (Lock.lastBackgroundTimestamp s))).
  destruct (Lock.run false lockDeltaTime rest _) as [s2 c2].
  simpl in *. exact IH.
Qed.

(** X25: the handler only ever locks.  Over any sequence of state
    changes every call it makes on the auth store is
    [setLockTriggered(true)], and a single state change makes a call only
    when the app becomes active while the state recorded before it was
    background and authentication is required. *)
Theorem lock_only_from_background (requiresAuth : bool) :
  (forall events s c,
     In c (snd (Lock.run requiresAuth lockDeltaTime events s)) ->
     c = Lock.setLockTriggered true)
  /\
  (forall now next s,
     snd (Lock.handleAppStateChanged requiresAuth lockDeltaTime now next s)
     <> [] ->
     next = Lock.active /\ Lock.current s = Lock.background /\
     requiresAuth = true).
Proof.
  assert (Hstep : forall now next s c,
    In c (snd (Lock.handleAppStateChanged requiresAuth lockDeltaTime now
                 next s)) ->
    c = Lock.setLockTriggered true).
  { intros now next s c. unfold Lock.handleAppStateChanged.
    destruct (_ && requiresAuth); [intros []|].
    destruct (_ && _ && requiresAuth); [|intros []].
    destruct (Qle_bool _ _); [|intros []].
    intros [<-|[]]. reflexivity. }
  split.
  - induction events as [|[now next] rest IH]; intros s c; [intros []|].
    simpl. specialize (Hstep now next s c).
    destruct (Lock.handleAppStateChanged _ _ now next s) as [s1 c1].
    specialize (IH s1 c).
    destruct (Lock.run _ _ rest s1) as [s2 c2]. simpl in *.
    intros Hin. apply in_app_or in Hin as [Hin|Hin]; auto.
  - intros now next s. unfold Lock.handleAppStateChanged.
    destruct next, (Lock.current s), requiresAuth; simpl;
      try (intros H; exfalso; apply H; reflexivity);
      try (intros _; repeat split; reflexivity).
Qed.

(** X26: a state change in between defeats the lock: when the app goes
    to the background, then to inactive, then becomes active, no lock is
    triggered however long it stayed away. *)
Theorem inactive_in_between_skips_lock (requiresAuth : bool) (t0 t1 t2 : Z)
    (s : Lock.t) :
  snd (Lock.run requiresAuth lockDeltaTime
         [(t0, Lock.background); (t1, Lock.inactive); (t2, Lock.active)] s)
  = [].
Proof.
  unfold Lock.run, Lock.handleAppStateChanged.
  destruct requiresAuth; reflexivity.
Qed.

End LockProperties.

(** ** Totals of UTXO values *)


(** X28: when no UTXO has a negative value, the value of a selection
    taken from the UTXOs of an account lies between zero and the value of
    all of them. *)
Theorem utxosValue_selection_bounded (selected all : list Utxo.t) :
  Forall (fun u => 0 <= Utxo.value u) all ->
  sublist selected all ->
  0 <= utxosValue selected <= utxosValue all.
Proof.
  intros Hpos Hsub. induction Hsub as [|u s t _ IH|u s t _ IH].
  - change (utxosValue []) with 0. lia.
  - rewrite !utxosValue_cons. apply Forall_cons in Hpos as [Hu Hpos].
    specialize (IH Hpos). lia.
  - rewrite utxosValue_cons. apply Forall_cons in Hpos as [Hu Hpos].
    specialize (IH Hpos). lia.
Qed.

Lemma utxosValue_selection_bounded_witness :
  0 <= utxosValue [second_utxo] <= utxosValue [derived_utxo; second_utxo].
Proof.
  apply (utxosValue_selection_bounded [second_utxo]
           [derived_utxo; second_utxo]).
  - repeat constructor; simpl; lia.
  - apply sublist_cons. apply sublist_skip. apply sublist_nil.
Defined.

(** ** The order of the transaction list *)

Section SortLemmas.

Variable compare : TxnList.txn -> TxnList.txn -> Z.
Variable R : TxnList.txn -> TxnList.txn -> Prop.
Hypothesis compare_R : forall x y, compare x y <= 0 <-> R x y.
Hypothesis R_total : forall x y, R x y \/ R y x.

Lemma insert_perm (x : TxnList.txn) (l : list TxnList.txn) :
  Permutation (x :: l) (TxnList.insert compare x l).
Proof.
  induction l as [|y r IH]; simpl; [reflexivity|].
  destruct (compare x y <=? 0); [reflexivity|].
  rewrite perm_swap. apply perm_skip. exact IH.
Qed.

Lemma sort_perm (l : list TxnList.txn) :
  Permutation l (TxnList.sort compare l).
Proof.
  induction l as [|x r IH]; simpl; [reflexivity|].
  rewrite <- insert_perm. apply perm_skip. exact IH.
Qed.

Lemma insert_hdrel (a x : TxnList.txn) (l : list TxnList.txn) :
  R a x -> HdRel R a l -> HdRel R a (TxnList.insert compare x l).
Proof.
  intros Hax Hal. destruct l as [|y r]; simpl; [constructor; exact Hax|].
  destruct (compare x y <=? 0); constructor; [exact Hax|].
  inversion Hal; assumption.
Qed.

Lemma insert_sorted (x : TxnList.txn) (l : list TxnList.txn) :
  Sorted R l -> Sorted R (TxnList.insert compare x l).
Proof.
  induction 1 as [|y r Hr IH Hy]; simpl; [repeat constructor|].
  destruct (Z.leb_spec (compare x y) 0) as [H|H].
  - constructor; [constructor; assumption|].
    constructor. apply compare_R. exact H.
  - constructor; [exact IH|].
    apply insert_hdrel; [|exact Hy].
    destruct (R_total y x) as [Hyx|Hxy]; [exact Hyx|].
    apply compare_R in Hxy. lia.
Qed.

Lemma sort_sorted (l : list TxnList.txn) : Sorted R (TxnList.sort compare l).
Proof.
  induction l as [|x r IH]; simpl; [constructor|].
  apply insert_sorted. exact IH.
Qed.

Lemma sort_of_sorted (l : list TxnList.txn) :
  Sorted R l -> TxnList.sort compare l = l.
Proof.
  induction 1 as [|x r Hr IH Hx]; simpl; [reflexivity|].
  rewrite IH. destruct Hx as [|y r' Hxy]; simpl; [reflexivity|].
  apply compare_R in Hxy.
  destruct (Z.leb_spec (compare x y) 0) as [_|H]; [reflexivity | lia].
Qed.

End SortLemmas.

(** X29: the transaction list is shown in the order of its dates, a
    missing date counting as time zero: [displayed] is a rearrangement of
    the transactions in which times never decrease when the sort is
    ascending and never increase when it is descending. *)
Theorem displayed_in_time_order (sortAsc : bool)
    (transactions : list TxnList.txn) :
  Permutation transactions (TxnList.displayed sortAsc transactions) /\
  Sorted (fun t1 t2 =>
            if sortAsc
            then TxnList.time_or_0 t1 <= TxnList.time_or_0 t2
            else TxnList.time_or_0 t2 <= TxnList.time_or_0 t1)
         (TxnList.displayed sortAsc transactions).
Proof.
  unfold TxnList.displayed. split; [apply sort_perm|].
  destruct sortAsc.
  - apply sort_sorted.
    + intros x y. unfold TxnList.txnSortAsc. lia.
    + intros x y. lia.
  - apply sort_sorted.
    + intros x y. unfold TxnList.txnSortDesc. lia.
    + intros x y. lia.
Qed.

(** X30: sorting again changes nothing: the list as displayed, sorted
    once more in the same direction (as every render does, in place), is
    the list as displayed. *)
Theorem displayed_idempotent (sortAsc : bool)
    (transactions : list TxnList.txn) :
  TxnList.displayed sortAsc (TxnList.displayed sortAsc transactions)
  = TxnList.displayed sortAsc transactions.
Proof.
  unfold TxnList.displayed. destruct sortAsc.
  - apply (sort_of_sorted _
             (fun t1 t2 => TxnList.time_or_0 t1 <= TxnList.time_or_0 t2)).
    + intros x y. unfold TxnList.txnSortAsc. lia.
    + apply sort_sorted.
      * intros x y. unfold TxnList.txnSortAsc. lia.
      * intros x y. lia.
  - apply (sort_of_sorted _
             (fun t1 t2 => TxnList.time_or_0 t2 <= TxnList.time_or_0 t1)).
    + intros x y. unfold TxnList.txnSortDesc. lia.
    + apply sort_sorted.
      * intros x y. unfold TxnList.txnSortDesc. lia.
      * intros x y. lia.
Qed.
